(** * GPT-Image interactive editor: session-state bookkeeping of [app.py]

    A shallow embedding of the conversation state kept by the Streamlit
    script (the two image slots, the API transcript [chat_history] and
    the display log [chat_display]), of the payload builder
    [build_payload], of the response-parsing loop and of the base64
    helpers [encode_b64] / [decode_b64], followed by the properties of
    the specification that concern them. *)

From Stdlib Require Import List String Ascii Bool Arith NArith Lia.
From Stdlib Require Import Init.Byte.
Import ListNotations.

Local Open Scope string_scope.
Local Open Scope list_scope.

(* ===================================================================== *)
(** * Python values used by the script *)
(* ===================================================================== *)

(** A Python [bytes] object. *)
Definition bytes := list byte.

(** A Python [str] is modelled by a [string] whose characters are the
    code points below 256. *)

(** Truth value of a [str]: only the empty string is false. *)
Definition truthy (s : string) : bool :=
  match s with
  | EmptyString => false
  | String _ _ => true
  end.

(** Truth value of a value that is [None] or a [str]. *)
Definition truthy_opt (o : option string) : bool :=
  match o with
  | None => false
  | Some s => truthy s
  end.

(** Formatting of a value inside an f-string: [None] prints as its name. *)
Definition format_value (o : option string) : string :=
  match o with
  | None => "None"
  | Some s => s
  end.

(** [str.isspace] on one character, for the code points below 256:
    TAB..CR, FS..US, SPACE, NEL and NBSP. *)
Definition isspace (c : ascii) : bool :=
  let n := N_of_ascii c in
  ((9 <=? n) && (n <=? 13) || (28 <=? n) && (n <=? 31)
   || (n =? 32) || (n =? 133) || (n =? 160))%N.

Fixpoint lstrip (s : string) : string :=
  match s with
  | EmptyString => EmptyString
  | String c r => if isspace c then lstrip r else s
  end.

Fixpoint rstrip (s : string) : string :=
  match s with
  | EmptyString => EmptyString
  | String c r =>
      match rstrip r with
      | EmptyString => if isspace c then EmptyString else String c EmptyString
      | r' => String c r'
      end
  end.

(** [s.strip()] *)
Definition strip (s : string) : string := rstrip (lstrip s).

(** [sep.join(l)] *)
Fixpoint join (sep : string) (l : list string) : string :=
  match l with
  | [] => EmptyString
  | [x] => x
  | x :: rest => x ++ sep ++ join sep rest
  end.

(** The one-character string ["\n"]. *)
Definition newline : string := String (ascii_of_N 10) EmptyString.

(* ===================================================================== *)
(** * base64 (the standard library codec behind the two helpers) *)
(* ===================================================================== *)

Module Base64.

(** The alphabet of RFC 4648, section 4. *)
Definition table_b2a_base64 : string :=
  "ABCDEFGHIJKLMNOPQRSTUVWXYZabcdefghijklmnopqrstuvwxyz0123456789+/".

Definition BASE64_PAD : ascii := "="%char.

(** Character of a 6-bit group. *)
Definition b2a (n : N) : ascii :=
  match String.get (N.to_nat n) table_b2a_base64 with
  | Some c => c
  | None => BASE64_PAD
  end.

Fixpoint index_from (c : ascii) (tbl : string) (i : N) : option N :=
  match tbl with
  | EmptyString => None
  | String d r => if Ascii.eqb c d then Some i else index_from c r (N.succ i)
  end.

(** Inverse table: the 6-bit group of an alphabet character, [None]
    for every other character. *)
Definition table_a2b_base64 (c : ascii) : option N :=
  index_from c table_b2a_base64 0%N.

(** Store into an [unsigned char]: the value is taken modulo 256. *)
Definition to_uchar (n : N) : byte :=
  match Byte.of_N (n mod 256) with
  | Some b => b
  | None => x00
  end.

(** [binascii.b2a_base64(data, newline=False)]: three bytes give four
    characters; a final group of one or two bytes is padded with ['=']. *)
Fixpoint b2a_base64 (bin_data : bytes) : string :=
  match bin_data with
  | [] => EmptyString
  | [b1] =>
      let n1 := Byte.to_N b1 in
      String (b2a (N.shiftr n1 2))
        (String (b2a (N.shiftl (N.land n1 3) 4))
           (String BASE64_PAD (String BASE64_PAD EmptyString)))
  | [b1; b2] =>
      let n1 := Byte.to_N b1 in
      let n2 := Byte.to_N b2 in
      String (b2a (N.shiftr n1 2))
        (String (b2a (N.lor (N.shiftl (N.land n1 3) 4) (N.shiftr n2 4)))
           (String (b2a (N.shiftl (N.land n2 15) 2))
              (String BASE64_PAD EmptyString)))
  | b1 :: b2 :: b3 :: rest =>
      let n1 := Byte.to_N b1 in
      let n2 := Byte.to_N b2 in
      let n3 := Byte.to_N b3 in
      String (b2a (N.shiftr n1 2))
        (String (b2a (N.lor (N.shiftl (N.land n1 3) 4) (N.shiftr n2 4)))
           (String (b2a (N.lor (N.shiftl (N.land n2 15) 2) (N.shiftr n3 6)))
              (String (b2a (N.land n3 63)) (b2a_base64 rest))))
  end.

(** [binascii.a2b_base64(data)] in its default, non-strict mode: one
    pass over the characters with the position in the current quad
    ([quad_pos]), the bits left over from the previous character
    ([leftchar]) and the length of the current run of pad characters
    ([pads]).  Characters outside the alphabet are skipped; a pad run
    that completes a quad ends the decoding; input that ends inside a
    quad is an error ([None]). *)
Fixpoint a2b_loop (ascii_data : string) (quad_pos : nat) (leftchar : N)
    (pads : nat) (bin_data : bytes) : option bytes :=
  match ascii_data with
  | EmptyString =>
      if Nat.eqb quad_pos 0 then Some bin_data else None
  | String this_ch rest =>
      if Ascii.eqb this_ch BASE64_PAD then
        if Nat.leb 2 quad_pos then
          if Nat.leb 4 (quad_pos + S pads) then Some bin_data
          else a2b_loop rest quad_pos leftchar (S pads) bin_data
        else a2b_loop rest quad_pos leftchar pads bin_data
      else
        match table_a2b_base64 this_ch with
        | None => a2b_loop rest quad_pos leftchar pads bin_data
        | Some v =>
            match quad_pos with
            | 0 => a2b_loop rest 1 v 0 bin_data
            | 1 =>
                a2b_loop rest 2 (N.land v 15) 0
                  (bin_data ++
                   [to_uchar (N.lor (N.shiftl leftchar 2) (N.shiftr v 4))])
            | 2 =>
                a2b_loop rest 3 (N.land v 3) 0
                  (bin_data ++
                   [to_uchar (N.lor (N.shiftl leftchar 4) (N.shiftr v 2))])
            | _ =>
                a2b_loop rest 0 0%N 0
                  (bin_data ++ [to_uchar (N.lor (N.shiftl leftchar 6) v)])
            end
        end
  end.

Definition a2b_base64 (ascii_data : string) : option bytes :=
  a2b_loop ascii_data 0 0%N 0 [].

(** [base64.b64encode(b)] *)
Definition b64encode (b : bytes) : string := b2a_base64 b.

Definition is_ascii (c : ascii) : bool := (N_of_ascii c <? 128)%N.

Fixpoint all_ascii (s : string) : bool :=
  match s with
  | EmptyString => true
  | String c r => is_ascii c && all_ascii r
  end.

(** [base64.b64decode(s)] on a [str]: the string must be pure ASCII
    (otherwise [ValueError]), then it is decoded non-strictly. *)
Definition b64decode (s : string) : option bytes :=
  if all_ascii s then a2b_base64 s else None.

End Base64.

(** [encode_b64 = lambda b: base64.b64encode(b).decode("utf-8")];
    decoding ASCII bytes as UTF-8 gives the same characters. *)
Definition encode_b64 (b : bytes) : string := Base64.b64encode b.

(** [decode_b64 = lambda s: base64.b64decode(s)]; [None] when the library
    raises. *)
Definition decode_b64 (s : string) : option bytes := Base64.b64decode s.

(* ===================================================================== *)
(** * Session state *)
(* ===================================================================== *)

Module Turn.
(** An entry of [chat_history]: [{"role": ..., "text": ...}]. *)
Record t := mk { role : string; text : string }.
End Turn.

Module Display.
(** An entry of [chat_display]: [{"role": ..., "kind": ..., "data": ...}]. *)
Record t := mk { role : string; kind : string; data : string }.
End Display.

(** [st.session_state] *)
Record Session := mkSession {
  original_image_b64 : option string;
  last_image_b64 : option string;
  chat_history : list Turn.t;
  chat_display : list Display.t
}.

(** Section 2 of the script: a fresh session. *)
Definition initial_session : Session :=
  mkSession None None [] [].

(* ===================================================================== *)
(** * Request payload *)
(* ===================================================================== *)

Module Request.
(** A content item of a request turn: [{"type": .., "text": ..}] or
    [{"type": .., "image_url": ..}]. *)
Inductive item :=
| Text (type : string) (text : string)
| Image (type : string) (image_url : string).

Definition type (i : item) : string :=
  match i with Text ty _ => ty | Image ty _ => ty end.

(** A request turn: [{"role": .., "content": [..]}]. *)
Record t := mk { role : string; content : list item }.
End Request.

(** One pass of the loop over the older turns. *)
Definition append_turn (messages : list Request.t) (msg : Turn.t)
    : list Request.t :=
  let input_type :=
    if String.eqb (Turn.role msg) "user" then "input_text" else "output_text" in
  messages ++
  [Request.mk (Turn.role msg) [Request.Text input_type (Turn.text msg)]].

Definition build_payload (user_prompt : string) (st : Session)
    : list Request.t :=
  let messages := fold_left append_turn (chat_history st) [] in
  messages ++
  [Request.mk "user"
     [Request.Text "input_text" user_prompt;
      Request.Image "input_image"
        ("data:image/jpeg;base64," ++ format_value (last_image_b64 st))]].

(* ===================================================================== *)
(** * Response items *)
(* ===================================================================== *)

Module Output.
(** A content piece of a message item; [text] is [None] when the piece
    has no [text] attribute (or carries [None]). *)
Record piece := mk_piece { text : option string }.

(** An item of [response.output]: the [type] tag decides which of the
    other fields the script reads. *)
Record t := mk {
  type : string;
  content : list piece;
  result : option string
}.
End Output.

(** The inner loop over [out.content]. *)
Definition collect_text (assistant_text : list string) (c : Output.piece)
    : list string :=
  match Output.text c with
  | Some txt => if truthy txt then assistant_text ++ [txt] else assistant_text
  | None => assistant_text
  end.

(** One pass of the loop over [response.output]; the state is the pair
    ([assistant_text], [assistant_img_b64]). *)
Definition parse_item (acc : list string * option string) (out : Output.t)
    : list string * option string :=
  let '(assistant_text, assistant_img_b64) := acc in
  if String.eqb (Output.type out) "message" then
    (fold_left collect_text (Output.content out) assistant_text,
     assistant_img_b64)
  else if String.eqb (Output.type out) "image_generation_call" then
    (assistant_text, Output.result out)
  else (assistant_text, assistant_img_b64).

Definition parse_output (output : list Output.t)
    : list string * option string :=
  fold_left parse_item output ([], None).

Definition full_assistant_text (output : list Output.t) : string :=
  strip (join newline (fst (parse_output output))).

Definition assistant_img_b64 (output : list Output.t) : option string :=
  snd (parse_output output).

(* ===================================================================== *)
(** * Operations on the session *)
(* ===================================================================== *)

(** The reset button. *)
Definition reset (st : Session) : Session :=
  mkSession None None [] [].

(** Section 4 of the script: [uploaded] is the file held by the uploader
    widget ([None] when there is none) with the bytes [uploaded.read()]
    returns. *)
Definition ingest_upload (uploaded : option bytes) (st : Session) : Session :=
  match uploaded, original_image_b64 st with
  | Some raw, None =>
      let b64 := encode_b64 raw in
      mkSession (Some b64) (Some b64) [] []
  | _, _ => st
  end.

(** State update 1: the user text goes to both logs. *)
Definition log_user (user_prompt : string) (st : Session) : Session :=
  mkSession (original_image_b64 st) (last_image_b64 st)
    (chat_history st ++ [Turn.mk "user" user_prompt])
    (chat_display st ++ [Display.mk "user" "text" user_prompt]).

(** State update 2: the assistant text, when there is one. *)
Definition log_assistant_text (txt : string) (st : Session) : Session :=
  if truthy txt then
    mkSession (original_image_b64 st) (last_image_b64 st)
      (chat_history st ++ [Turn.mk "assistant" txt])
      (chat_display st ++ [Display.mk "assistant" "text" txt])
  else st.

(** State update 3: the assistant image, when there is one. *)
Definition log_assistant_image (img : option string) (st : Session) : Session :=
  match img with
  | Some data =>
      if truthy data then
        mkSession (original_image_b64 st) (Some data)
          (chat_history st)
          (chat_display st ++ [Display.mk "assistant" "image" data])
      else st
  | None => st
  end.

(** The part of the prompt handler that follows the remote call: parse
    [response.output], then update the session. *)
Definition apply_response (user_prompt : string) (output : list Output.t)
    (st : Session) : Session :=
  log_assistant_image (assistant_img_b64 output)
    (log_assistant_text (full_assistant_text output)
       (log_user user_prompt st)).

(** What one run of the prompt handler did besides changing the session. *)
Inductive Outcome :=
| NoPrompt                                   (* nothing was submitted *)
| Stopped (error : string)                   (* [st.error] then [st.stop] *)
| CallFailed (payload : list Request.t)      (* the remote call raised *)
| Answered (payload : list Request.t).       (* the remote call returned *)

(** The remote service: the answer to a payload, [None] when the call
    raises. *)
Definition Service := list Request.t -> option (list Output.t).

(** Section 5 of the script. [user_prompt] is the value of the chat input
    ([None] when nothing was submitted). *)
Definition prompt_handler (responses_create : Service)
    (user_prompt : option string) (st : Session) : Session * Outcome :=
  match user_prompt with
  | None => (st, NoPrompt)
  | Some prompt =>
      if truthy prompt then
        match original_image_b64 st with
        | None => (st, Stopped "Please upload an image first.")
        | Some _ =>
            let payload := build_payload prompt st in
            match responses_create payload with
            | None => (st, CallFailed payload)
            | Some output => (apply_response prompt output st, Answered payload)
            end
        end
      else (st, NoPrompt)
  end.

(** The operations of the conversation state manager. *)
Inductive Op :=
| Reset
| IngestUpload (uploaded : option bytes)
| ApplyResponse (user_prompt : string) (output : list Output.t)
| Prompt (responses_create : Service) (user_prompt : option string).

Definition step (st : Session) (op : Op) : Session :=
  match op with
  | Reset => reset st
  | IngestUpload uploaded => ingest_upload uploaded st
  | ApplyResponse user_prompt output => apply_response user_prompt output st
  | Prompt service user_prompt => fst (prompt_handler service user_prompt st)
  end.

Definition run (ops : list Op) (st : Session) : Session :=
  fold_left step ops st.

(** Sessions the script can be in: it starts from the fresh session and
    changes only through the reset button, the upload block and the
    prompt handler. *)
Inductive reachable : Session -> Prop :=
| reach_init : reachable initial_session
| reach_reset st : reachable st -> reachable (reset st)
| reach_upload st uploaded :
    reachable st -> reachable (ingest_upload uploaded st)
| reach_prompt st service user_prompt :
    reachable st ->
    reachable (fst (prompt_handler service user_prompt st)).

(* ===================================================================== *)
(** * The specification's vocabulary *)
(* ===================================================================== *)

(** These definitions follow the words of the specification; the theorems
    below compare them with the loops above. *)

Definition is_message (out : Output.t) : bool :=
  String.eqb (Output.type out) "message".

Definition is_image_call (out : Output.t) : bool :=
  String.eqb (Output.type out) "image_generation_call".

(** An output item of a kind the handler knows. *)
Definition known_item (out : Output.t) : bool :=
  is_message out || is_image_call out.

Definition has_text (c : Output.piece) : bool :=
  match Output.text c with Some _ => true | None => false end.

(** The non-empty text pieces of one message, in order. *)
Definition piece_texts (content : list Output.piece) : list string :=
  flat_map (fun c =>
              match Output.text c with
              | Some txt => if truthy txt then [txt] else []
              | None => []
              end) content.

(** Every non-empty text piece of every message item, in encounter order. *)
Definition message_texts (output : list Output.t) : list string :=
  flat_map (fun out =>
              if is_message out then piece_texts (Output.content out) else [])
           output.

(** [assistantText]: the pieces joined by newline, then trimmed. *)
Definition spec_assistant_text (output : list Output.t) : string :=
  strip (join newline (message_texts output)).

(** The last image-generation-call item of a response, if any. *)
Definition last_image_call (output : list Output.t) : option Output.t :=
  find is_image_call (rev output).

(** [assistantImage]: the result carried by that item. *)
Definition spec_assistant_image (output : list Output.t) : option string :=
  match last_image_call output with
  | Some out => Output.result out
  | None => None
  end.

(** The same item with the content pieces that have no text removed. *)
Definition without_textless (out : Output.t) : Output.t :=
  Output.mk (Output.type out) (filter has_text (Output.content out))
    (Output.result out).

(** The response with every image-generation-call item but the last one
    removed. *)
Fixpoint keep_last_image_call (output : list Output.t) : list Output.t :=
  match output with
  | [] => []
  | out :: rest =>
      if is_image_call out && existsb is_image_call rest
      then keep_last_image_call rest
      else out :: keep_last_image_call rest
  end.

(** The role the transcript entry at index [i] has when roles alternate
    starting with the user. *)
Definition expected_role (i : nat) : string :=
  if Nat.even i then "user" else "assistant".

Fixpoint alternates_from (i : nat) (history : list Turn.t) : bool :=
  match history with
  | [] => true
  | t :: rest =>
      String.eqb (Turn.role t) (expected_role i) && alternates_from (S i) rest
  end.

(** Strict alternation of the roles of a transcript, starting with "user". *)
Definition alternates (history : list Turn.t) : bool :=
  alternates_from 0 history.

(** Two neighbouring entries with the same role. *)
Fixpoint adjacent_same_role (history : list Turn.t) : bool :=
  match history with
  | t1 :: ((t2 :: _) as rest) =>
      String.eqb (Turn.role t1) (Turn.role t2) || adjacent_same_role rest
  | _ => false
  end.

(** The 256 bytes, in order. *)
Definition all_bytes : list byte :=
  map (fun n => match Byte.of_nat n with Some b => b | None => x00 end)
      (seq 0 256).

(* ===================================================================== *)
(** * The script as a whole *)
(* ===================================================================== *)

(** The five settings read from the environment ([os.getenv] gives [None]
    for a variable that is not set). *)
Record Config := mkConfig {
  ENDPOINT : option string;
  API_KEY : option string;
  IMG_DEPLOYMENT : option string;
  CHAT_MODEL : option string;
  API_VERSION : option string
}.

(** [all([ENDPOINT, API_KEY, IMG_DEPLOYMENT, CHAT_MODEL, API_VERSION])] *)
Definition config_complete (cfg : Config) : bool :=
  forallb truthy_opt
    [ENDPOINT cfg; API_KEY cfg; IMG_DEPLOYMENT cfg; CHAT_MODEL cfg;
     API_VERSION cfg].

(** The calls of one run whose arguments depend on the session or on the
    inputs, in the order they are made (titles, headers and the spinner
    are left out). *)
Inductive Call :=
| st_error (msg : string)
| st_success                                   (* the reset notice *)
| st_download_button (data : bytes)
| st_image (data : bytes) (caption : option string)
| st_info (msg : string)
| remote_call (payload : list Request.t)       (* [client.responses.create] *)
| st_chat_message (role : string)
| st_markdown (body : string).

(** How a run ends: at the end of the script, at [st.stop()], or with an
    exception. *)
Inductive Status := Finished | Halted | Raised.

Definition Run : Type := Session * list Call * Status.

(** Sequencing: the rest of the script runs only if nothing stopped it;
    changes made to the session so far stay. *)
Definition and_then (r : Run) (k : Session -> Run) : Run :=
  let '(st, calls, status) := r in
  match status with
  | Finished =>
      let '(st', calls', status') := k st in (st', calls ++ calls', status')
  | _ => r
  end.

(** The image a block guarded by [if st.session_state.last_image_b64:]
    works on. *)
Definition shown_image (st : Session) : option string :=
  match last_image_b64 st with
  | Some img => if truthy img then Some img else None
  | None => None
  end.

(** Sidebar, the reset button. *)
Definition sidebar_reset (reset_clicked : bool) (st : Session) : Run :=
  if reset_clicked then (reset st, [st_success], Finished)
  else (st, [], Finished).

(** Sidebar, the download button. *)
Definition sidebar_download (st : Session) : Run :=
  match shown_image st with
  | Some img =>
      match decode_b64 img with
      | Some data => (st, [st_download_button data], Finished)
      | None => (st, [], Raised)
      end
  | None => (st, [], Finished)
  end.

(** Section 4: the upload block, then the current image or the hint. *)
Definition current_image (uploaded : option bytes) (st : Session) : Run :=
  let st := ingest_upload uploaded st in
  match shown_image st with
  | Some img =>
      match decode_b64 img with
      | Some data => (st, [st_image data (Some "Latest version")], Finished)
      | None => (st, [], Raised)
      end
  | None => (st, [st_info "Upload an image in the sidebar to begin."], Finished)
  end.

(** The loop that renders the conversation. *)
Fixpoint render_log (display : list Display.t) : list Call * Status :=
  match display with
  | [] => ([], Finished)
  | m :: rest =>
      if String.eqb (Display.kind m) "text" then
        let '(calls, status) := render_log rest in
        (st_chat_message (Display.role m) :: st_markdown (Display.data m)
           :: calls, status)
      else
        match decode_b64 (Display.data m) with
        | Some data =>
            let '(calls, status) := render_log rest in
            (st_chat_message (Display.role m) :: st_image data None :: calls,
             status)
        | None => ([st_chat_message (Display.role m)], Raised)
        end
  end.

(** Section 5: the prompt handler with what it draws. *)
Definition prompt_section (service : Service) (user_prompt : option string)
    (st : Session) : Run :=
  match prompt_handler service user_prompt st with
  | (st', NoPrompt) => (st', [], Finished)
  | (st', Stopped msg) => (st', [st_error msg], Halted)
  | (st', CallFailed payload) => (st', [remote_call payload], Raised)
  | (st', Answered payload) =>
      let '(calls, status) := render_log (chat_display st') in
      (st', remote_call payload :: calls, status)
  end.

(** One run of the script: [reset_clicked], [uploaded] and [user_prompt]
    are what the button, the uploader and the chat input return. *)
Definition script_run (cfg : Config) (service : Service)
    (reset_clicked : bool) (uploaded : option bytes)
    (user_prompt : option string) (st : Session) : Run :=
  if config_complete cfg then
    and_then (sidebar_reset reset_clicked st) (fun st =>
    and_then (sidebar_download st) (fun st =>
    and_then (current_image uploaded st) (fun st =>
    prompt_section service user_prompt st)))
  else
    (st, [st_error "One or more required environment variables are missing."],
     Halted).

Definition is_remote_call (c : Call) : bool :=
  match c with remote_call _ => true | _ => false end.

Definition session_of (r : Run) : Session := fst (fst r).
Definition calls_of (r : Run) : list Call := snd (fst r).
Definition status_of (r : Run) : Status := snd r.

(** The session right after a first upload of [raw]. *)
Definition fresh_session (raw : bytes) : Session :=
  mkSession (Some (encode_b64 raw)) (Some (encode_b64 raw)) [] [].

(* ===================================================================== *)
(** * Predicates on the logs *)
(* ===================================================================== *)

Definition is_text_entry (m : Display.t) : bool :=
  String.eqb (Display.kind m) "text".

(** The text entries of the display log, as transcript entries. *)
Definition text_turns (display : list Display.t) : list Turn.t :=
  flat_map (fun m =>
              if is_text_entry m
              then [Turn.mk (Display.role m) (Display.data m)] else [])
           display.

(** The data of the last entry of the display log that is not a text
    entry. *)
Definition latest_image (display : list Display.t) : option string :=
  match find (fun m => negb (is_text_entry m)) (rev display) with
  | Some m => Some (Display.data m)
  | None => None
  end.

(** Every "assistant" turn comes right after a "user" turn, and there is
    no other role; [after_user] tells whether the previous turn was a user
    turn. *)
Fixpoint user_led (after_user : bool) (history : list Turn.t) : bool :=
  match history with
  | [] => true
  | t :: rest =>
      if String.eqb (Turn.role t) "user" then user_led true rest
      else String.eqb (Turn.role t) "assistant" && after_user
           && user_led false rest
  end.

Fixpoint last_char (c : ascii) (s : string) : ascii :=
  match s with
  | EmptyString => c
  | String d r => last_char d r
  end.

(** A non-empty string without white space at either end. *)
Definition trimmed (s : string) : bool :=
  match s with
  | EmptyString => false
  | String c r => negb (isspace c) && negb (isspace (last_char c r))
  end.

(** What the handler can have written into the display log. *)
Definition entry_ok (m : Display.t) : bool :=
  if String.eqb (Display.role m) "user" then
    String.eqb (Display.kind m) "text" && truthy (Display.data m)
  else
    String.eqb (Display.role m) "assistant"
    && (String.eqb (Display.kind m) "text" && trimmed (Display.data m)
        || String.eqb (Display.kind m) "image" && truthy (Display.data m)).


(** The final turn of a request. *)
Definition current_turn (user_prompt : string) (img : string) : Request.t :=
  Request.mk "user"
    [Request.Text "input_text" user_prompt;
     Request.Image "input_image" ("data:image/jpeg;base64," ++ img)].

(** What a response with assistant text [txt] adds to the transcript. *)
Definition new_turns (user_prompt txt : string) : list Turn.t :=
  Turn.mk "user" user_prompt ::
  (if truthy txt then [Turn.mk "assistant" txt] else []).

(** What a response with assistant text [txt] and image [img] adds to the
    display log. *)
Definition new_entries (user_prompt txt : string) (img : option string)
    : list Display.t :=
  Display.mk "user" "text" user_prompt ::
  (if truthy txt then [Display.mk "assistant" "text" txt] else []) ++
  match img with
  | Some data =>
      if truthy data then [Display.mk "assistant" "image" data] else []
  | None => []
  end.

(** What the handler can have written into the transcript. *)
Definition turn_ok (t : Turn.t) : bool :=
  if String.eqb (Turn.role t) "user" then truthy (Turn.text t)
  else String.eqb (Turn.role t) "assistant" && trimmed (Turn.text t).

(** The request turn made from a transcript entry. *)
Definition request_turn (msg : Turn.t) : Request.t :=
  Request.mk (Turn.role msg)
    [Request.Text
       (if String.eqb (Turn.role msg) "user"
        then "input_text" else "output_text")
       (Turn.text msg)].

(** A string made of white space only (the empty string is one). *)
Fixpoint all_space (s : string) : bool :=
  match s with
  | EmptyString => true
  | String c r => isspace c && all_space r
  end.

(* ===================================================================== *)
(** * base64: decoding inverts encoding *)
(* ===================================================================== *)

Section Finite_checks.

(** A boolean property checked on every byte holds of every byte. *)
Lemma forall_bytes (P : byte -> bool) :
  forallb P all_bytes = true -> forall b, P b = true.
Proof.
  intros H b. rewrite forallb_forall in H. apply H.
  unfold all_bytes. apply in_map_iff. exists (Byte.to_nat b). split.
  - now rewrite Byte.of_to_nat.
  - apply in_seq. pose proof (Byte.to_nat_bounded b). lia.
Qed.

(** A boolean property checked on 0..k-1 holds below k. *)
Lemma forall_below (P : N -> bool) (k : nat) :
  forallb P (map N.of_nat (seq 0 k)) = true ->
  forall n, (n < N.of_nat k)%N -> P n = true.
Proof.
  intros H n Hn. rewrite forallb_forall in H. apply H.
  apply in_map_iff. exists (N.to_nat n). split.
  - apply N2Nat.id.
  - apply in_seq. lia.
Qed.

End Finite_checks.

Module Base64_facts.
Import Base64.

Local Open Scope N_scope.

Lemma a2b_loop_nil q lc p acc :
  a2b_loop EmptyString q lc p acc =
  if Nat.eqb q 0 then Some acc else None.
Proof. reflexivity. Qed.

(** Every 6-bit group is sent to an ASCII character that is not the pad
    and that the inverse table sends back. *)
Lemma sextet_char n :
  n < 64 ->
  Ascii.eqb (b2a n) BASE64_PAD = false /\
  table_a2b_base64 (b2a n) = Some n /\
  is_ascii (b2a n) = true.
Proof.
  intros Hn.
  assert (H : (negb (Ascii.eqb (b2a n) BASE64_PAD)
               && match table_a2b_base64 (b2a n) with
                  | Some m => N.eqb m n
                  | None => false
                  end
               && is_ascii (b2a n))%bool = true).
  { revert n Hn. apply (forall_below _ 64). vm_compute. reflexivity. }
  apply andb_prop in H as [H H3]. apply andb_prop in H as [H1 H2].
  repeat split.
  - now apply negb_true_iff.
  - destruct (table_a2b_base64 (b2a n)); [|discriminate].
    apply N.eqb_eq in H2. now subst.
  - exact H3.
Qed.

(** One step of the decoder on an alphabet character. *)
Lemma a2b_loop_sextet n rest q lc p acc :
  n < 64 ->
  a2b_loop (String (b2a n) rest) q lc p acc =
  match q with
  | 0%nat => a2b_loop rest 1 n 0 acc
  | 1%nat =>
      a2b_loop rest 2 (N.land n 15) 0
        (acc ++ [to_uchar (N.lor (N.shiftl lc 2) (N.shiftr n 4))])
  | 2%nat =>
      a2b_loop rest 3 (N.land n 3) 0
        (acc ++ [to_uchar (N.lor (N.shiftl lc 4) (N.shiftr n 2))])
  | _ =>
      a2b_loop rest 0 0 0 (acc ++ [to_uchar (N.lor (N.shiftl lc 6) n)])
  end.
Proof.
  intros Hn. destruct (sextet_char n Hn) as (Hpad & Htab & _).
  cbn [a2b_loop]. rewrite Hpad, Htab. reflexivity.
Qed.

(** One step of the decoder on a pad character. *)
Lemma a2b_loop_pad rest q lc p acc :
  a2b_loop (String BASE64_PAD rest) q lc p acc =
  if Nat.leb 2 q then
    if Nat.leb 4 (q + S p) then Some acc
    else a2b_loop rest q lc (S p) acc
  else a2b_loop rest q lc p acc.
Proof. reflexivity. Qed.

(** Facts on the bits of one byte. *)
Lemma one_byte_bits b :
  let n := Byte.to_N b in
  N.shiftr n 2 < 64 /\ N.shiftl (N.land n 3) 4 < 64 /\
  N.shiftl (N.land n 15) 2 < 64 /\ N.land n 63 < 64 /\
  to_uchar (N.lor (N.shiftl (N.shiftr n 2) 2)
              (N.shiftr (N.shiftl (N.land n 3) 4) 4)) = b /\
  to_uchar (N.lor (N.shiftl (N.shiftr n 4) 4)
              (N.shiftr (N.shiftl (N.land n 15) 2) 2)) = b /\
  to_uchar (N.lor (N.shiftl (N.shiftr n 6) 6) (N.land n 63)) = b.
Proof.
  destruct b; vm_compute; repeat split.
Qed.

(** Facts on the bits of two neighbouring bytes. *)
Lemma two_byte_bits b1 b2 :
  let n1 := Byte.to_N b1 in
  let n2 := Byte.to_N b2 in
  let s2 := N.lor (N.shiftl (N.land n1 3) 4) (N.shiftr n2 4) in
  let s3 := N.lor (N.shiftl (N.land n1 15) 2) (N.shiftr n2 6) in
  s2 < 64 /\ s3 < 64 /\
  to_uchar (N.lor (N.shiftl (N.shiftr n1 2) 2) (N.shiftr s2 4)) = b1 /\
  N.land s2 15 = N.shiftr n2 4 /\
  to_uchar (N.lor (N.shiftl (N.shiftr n1 4) 4) (N.shiftr s3 2)) = b1 /\
  N.land s3 3 = N.shiftr n2 6.
Proof.
  cbv zeta.
  assert (H : forall x y,
    (let n1 := Byte.to_N x in
     let n2 := Byte.to_N y in
     let s2 := N.lor (N.shiftl (N.land n1 3) 4) (N.shiftr n2 4) in
     let s3 := N.lor (N.shiftl (N.land n1 15) 2) (N.shiftr n2 6) in
     (s2 <? 64) && (s3 <? 64)
     && Byte.eqb (to_uchar (N.lor (N.shiftl (N.shiftr n1 2) 2)
                              (N.shiftr s2 4))) x
     && (N.land s2 15 =? N.shiftr n2 4)
     && Byte.eqb (to_uchar (N.lor (N.shiftl (N.shiftr n1 4) 4)
                              (N.shiftr s3 2))) x
     && (N.land s3 3 =? N.shiftr n2 6))%bool = true).
  { intros x. apply forall_bytes. revert x. apply forall_bytes.
    vm_compute. reflexivity. }
  specialize (H b1 b2). cbv zeta in H.
  repeat (apply andb_prop in H as [H ?]).
  repeat split;
    try (now apply N.ltb_lt); try (now apply Byte.byte_dec_bl);
    now apply N.eqb_eq.
Qed.

End Base64_facts.

(** Induction on a byte string three bytes at a time, the way the encoder
    consumes it. *)
Lemma list_by_threes {A : Type} (P : list A -> Prop) :
  P [] ->
  (forall a, P [a]) ->
  (forall a b, P [a; b]) ->
  (forall a b c l, P l -> P (a :: b :: c :: l)) ->
  forall l, P l.
Proof.
  intros H0 H1 H2 H3 l.
  enough (P l /\ (forall a, P (a :: l)) /\ (forall a b, P (a :: b :: l)))
    by tauto.
  induction l as [|x l (IH0 & IH1 & IH2)].
  - auto.
  - repeat split; auto.
Qed.

(** The decoder, started at a quad boundary on the encoding of [bs],
    writes [bs] after what it has already written. *)
Lemma a2b_loop_b2a_base64 (bs : bytes) :
  forall acc,
    Base64.a2b_loop (Base64.b2a_base64 bs) 0 0%N 0 acc = Some (acc ++ bs).
Proof.
  induction bs as [| b1 | b1 b2 | b1 b2 b3 rest IH] using list_by_threes;
    intros acc.
  - cbn. now rewrite app_nil_r.
  - destruct (Base64_facts.one_byte_bits b1) as (L1 & L2 & _ & _ & E & _).
    cbn [Base64.b2a_base64].
    rewrite Base64_facts.a2b_loop_sextet by exact L1.
    rewrite Base64_facts.a2b_loop_sextet by exact L2.
    rewrite !Base64_facts.a2b_loop_pad. cbn [Nat.leb Nat.add].
    now rewrite E.
  - destruct (Base64_facts.one_byte_bits b1) as (L1 & _).
    destruct (Base64_facts.one_byte_bits b2) as (_ & _ & L3 & _ & _ & E2 & _).
    destruct (Base64_facts.two_byte_bits b1 b2) as (L2 & _ & E1 & M & _).
    cbn [Base64.b2a_base64].
    rewrite Base64_facts.a2b_loop_sextet by exact L1.
    rewrite Base64_facts.a2b_loop_sextet by exact L2.
    rewrite Base64_facts.a2b_loop_sextet by exact L3.
    rewrite Base64_facts.a2b_loop_pad. cbn [Nat.leb Nat.add].
    rewrite E1, M, E2, <- app_assoc. reflexivity.
  - destruct (Base64_facts.one_byte_bits b1) as (L1 & _).
    destruct (Base64_facts.one_byte_bits b3) as (_ & _ & _ & L4 & _ & _ & E3).
    destruct (Base64_facts.two_byte_bits b1 b2) as (L2 & _ & E1 & M2 & _).
    destruct (Base64_facts.two_byte_bits b2 b3) as (_ & L3 & _ & _ & E2 & M3).
    cbn [Base64.b2a_base64].
    rewrite Base64_facts.a2b_loop_sextet by exact L1.
    rewrite Base64_facts.a2b_loop_sextet by exact L2.
    rewrite Base64_facts.a2b_loop_sextet by exact L3.
    rewrite Base64_facts.a2b_loop_sextet by exact L4.
    rewrite E1, M2, E2, M3, E3, IH, <- !app_assoc. reflexivity.
Qed.

Ltac sextet_is_ascii L :=
  rewrite (proj2 (proj2 (Base64_facts.sextet_char _ L))).

(** The encoder writes ASCII characters only. *)
Lemma b2a_base64_ascii (bs : bytes) :
  Base64.all_ascii (Base64.b2a_base64 bs) = true.
Proof.
  induction bs as [| b1 | b1 b2 | b1 b2 b3 rest IH] using list_by_threes.
  - reflexivity.
  - destruct (Base64_facts.one_byte_bits b1) as (L1 & L2 & _).
    cbn [Base64.b2a_base64 Base64.all_ascii].
    sextet_is_ascii L1.
    sextet_is_ascii L2.
    reflexivity.
  - destruct (Base64_facts.one_byte_bits b1) as (L1 & _).
    destruct (Base64_facts.one_byte_bits b2) as (_ & _ & L3 & _).
    destruct (Base64_facts.two_byte_bits b1 b2) as (L2 & _).
    cbn [Base64.b2a_base64 Base64.all_ascii].
    sextet_is_ascii L1.
    sextet_is_ascii L2.
    sextet_is_ascii L3.
    reflexivity.
  - destruct (Base64_facts.one_byte_bits b1) as (L1 & _).
    destruct (Base64_facts.one_byte_bits b3) as (_ & _ & _ & L4 & _).
    destruct (Base64_facts.two_byte_bits b1 b2) as (L2 & _).
    destruct (Base64_facts.two_byte_bits b2 b3) as (_ & L3 & _).
    cbn [Base64.b2a_base64 Base64.all_ascii].
    sextet_is_ascii L1.
    sextet_is_ascii L2.
    sextet_is_ascii L3.
    sextet_is_ascii L4.
    exact IH.
Qed.

(** C10. Decoding the base64 encoding of a byte string succeeds and gives
    back exactly that byte string: [decode_b64 (encode_b64 b)] is [b],
    for every [b]. *)
Theorem decode_encode_b64 :
  forall b : bytes, decode_b64 (encode_b64 b) = Some b.
Proof.
  intros b. unfold decode_b64, encode_b64, Base64.b64decode, Base64.b64encode.
  rewrite b2a_base64_ascii. unfold Base64.a2b_base64.
  now rewrite a2b_loop_b2a_base64.
Qed.

(* ===================================================================== *)
(** * The request payload *)
(* ===================================================================== *)

(** The loop over the older turns appends one request turn per entry. *)
Lemma fold_append_turn (history : list Turn.t) :
  forall messages,
    fold_left append_turn history messages =
    messages ++
    map (fun msg =>
           Request.mk (Turn.role msg)
             [Request.Text
                (if String.eqb (Turn.role msg) "user"
                 then "input_text" else "output_text")
                (Turn.text msg)]) history.
Proof.
  induction history as [|msg history IH]; intros messages; cbn [fold_left map].
  - now rewrite app_nil_r.
  - rewrite IH. unfold append_turn. now rewrite <- app_assoc.
Qed.

(** C2. [build_payload] returns one request turn per transcript entry, in
    insertion order, with the entry's role and a single text item tagged
    "input_text" for a user entry and "output_text" for an assistant
    entry, followed by one final "user" turn holding the prompt as
    "input_text" and then the current image as an "input_image" data URI;
    its length is the transcript's length plus one. *)
Theorem build_payload_turns :
  forall (user_prompt : string) (st : Session),
    List.length (build_payload user_prompt st) =
    List.length (chat_history st) + 1 /\
    (forall i msg,
        nth_error (chat_history st) i = Some msg ->
        exists tag,
          nth_error (build_payload user_prompt st) i =
          Some (Request.mk (Turn.role msg)
                  [Request.Text tag (Turn.text msg)]) /\
          (Turn.role msg = "user" -> tag = "input_text") /\
          (Turn.role msg = "assistant" -> tag = "output_text")) /\
    nth_error (build_payload user_prompt st)
      (List.length (chat_history st)) =
    Some (Request.mk "user"
            [Request.Text "input_text" user_prompt;
             Request.Image "input_image"
               ("data:image/jpeg;base64," ++
                format_value (last_image_b64 st))]) /\
    (forall img,
        last_image_b64 st = Some img ->
        format_value (last_image_b64 st) = img).
Proof.
  intros user_prompt st. unfold build_payload.
  rewrite fold_append_turn. cbn [app].
  set (older := map _ (chat_history st)).
  assert (Hlen : List.length older = List.length (chat_history st))
    by (unfold older; apply length_map).
  repeat split.
  - rewrite length_app, Hlen. reflexivity.
  - intros i msg Hi.
    exists (if String.eqb (Turn.role msg) "user"
            then "input_text" else "output_text").
    repeat split.
    + rewrite nth_error_app1
        by (rewrite Hlen; apply nth_error_Some; congruence).
      unfold older. now rewrite nth_error_map, Hi.
    + intros ->. reflexivity.
    + intros ->. reflexivity.
  - rewrite nth_error_app2 by lia. rewrite Hlen, Nat.sub_diag. reflexivity.
  - intros img ->. reflexivity.
Qed.

(** A two-entry transcript: the assistant entry at index 1 is sent back
    tagged "output_text". *)
Lemma build_payload_turns_witness :
  let st :=
    mkSession (Some "QQ==") (Some "Qg==")
      [Turn.mk "user" "make it blue"; Turn.mk "assistant" "Done!"] [] in
  (exists tag,
      nth_error (build_payload "now red" st) 1 =
      Some (Request.mk "assistant" [Request.Text tag "Done!"]) /\
      ("assistant" = "user" -> tag = "input_text") /\
      ("assistant" = "assistant" -> tag = "output_text")) /\
  format_value (last_image_b64 st) = "Qg==".
Proof.
  intros st.
  destruct (build_payload_turns "now red" st) as (_ & Holder & _ & Hurl).
  split.
  - exact (Holder 1 (Turn.mk "assistant" "Done!") eq_refl).
  - exact (Hurl "Qg==" eq_refl).
Defined.

(* ===================================================================== *)
(** * Parsing the response *)
(* ===================================================================== *)

Lemma find_app {A : Type} (f : A -> bool) (l1 l2 : list A) :
  find f (l1 ++ l2) =
  match find f l1 with
  | Some x => Some x
  | None => find f l2
  end.
Proof.
  induction l1 as [|x l1 IH]; cbn; [reflexivity|].
  destruct (f x); [reflexivity | exact IH].
Qed.

Lemma message_not_image_call (out : Output.t) :
  is_message out = true -> is_image_call out = false.
Proof.
  unfold is_message, is_image_call. intros H.
  apply String.eqb_eq in H. now rewrite H.
Qed.

Lemma last_image_call_cons (out : Output.t) (rest : list Output.t) :
  last_image_call (out :: rest) =
  match last_image_call rest with
  | Some x => Some x
  | None => if is_image_call out then Some out else None
  end.
Proof.
  unfold last_image_call. cbn [rev]. rewrite find_app. reflexivity.
Qed.

(** The inner loop appends the non-empty texts of the pieces. *)
Lemma fold_collect_text (content : list Output.piece) :
  forall assistant_text,
    fold_left collect_text content assistant_text =
    assistant_text ++ piece_texts content.
Proof.
  induction content as [|c content IH]; intros acc; cbn [fold_left].
  - cbn. now rewrite app_nil_r.
  - rewrite IH. unfold piece_texts. cbn [flat_map]. unfold collect_text.
    destruct (Output.text c) as [txt|]; [destruct (truthy txt)|];
      cbn [app]; now rewrite <- ?app_assoc.
Qed.

(** The outer loop, from any intermediate state. *)
Lemma fold_parse_item (output : list Output.t) :
  forall assistant_text img,
    fold_left parse_item output (assistant_text, img) =
    (assistant_text ++ message_texts output,
     match last_image_call output with
     | Some out => Output.result out
     | None => img
     end).
Proof.
  induction output as [|out output IH]; intros acc img.
  - cbn. now rewrite app_nil_r.
  - cbn [fold_left]. rewrite last_image_call_cons.
    unfold message_texts. cbn [flat_map]. fold (message_texts output).
    unfold parse_item. fold (is_message out). fold (is_image_call out).
    destruct (is_message out) eqn:Hm.
    + rewrite (message_not_image_call out Hm), IH, fold_collect_text.
      rewrite <- app_assoc.
      now destruct (last_image_call output).
    + destruct (is_image_call out); rewrite IH; cbn [app];
        now destruct (last_image_call output).
Qed.

Lemma parse_output_spec (output : list Output.t) :
  parse_output output = (message_texts output, spec_assistant_image output).
Proof.
  unfold parse_output, spec_assistant_image. now rewrite fold_parse_item.
Qed.

(** The session update reads the response through [parse_output] only. *)
Lemma apply_response_parse (user_prompt : string) (o1 o2 : list Output.t)
    (st : Session) :
  parse_output o1 = parse_output o2 ->
  apply_response user_prompt o1 st = apply_response user_prompt o2 st.
Proof.
  intros H. unfold apply_response, full_assistant_text, assistant_img_b64.
  now rewrite H.
Qed.

Lemma parse_filter_known (output : list Output.t) :
  forall acc,
    fold_left parse_item (filter known_item output) acc =
    fold_left parse_item output acc.
Proof.
  induction output as [|out output IH]; intros acc; [reflexivity|].
  cbn [filter fold_left]. destruct (known_item out) eqn:Hk.
  - cbn [fold_left]. apply IH.
  - rewrite IH. f_equal. unfold known_item, is_message, is_image_call in Hk.
    apply orb_false_iff in Hk as [Hm Hi].
    unfold parse_item. destruct acc. now rewrite Hm, Hi.
Qed.

Lemma collect_filter_has_text (content : list Output.piece) :
  forall acc,
    fold_left collect_text (filter has_text content) acc =
    fold_left collect_text content acc.
Proof.
  induction content as [|c content IH]; intros acc; [reflexivity|].
  cbn [filter fold_left]. unfold has_text at 1.
  destruct (Output.text c) eqn:Hc.
  - cbn [fold_left]. apply IH.
  - rewrite IH. f_equal. unfold collect_text. now rewrite Hc.
Qed.

Lemma parse_without_textless (output : list Output.t) :
  forall acc,
    fold_left parse_item (map without_textless output) acc =
    fold_left parse_item output acc.
Proof.
  induction output as [|out output IH]; intros acc; [reflexivity|].
  cbn [map fold_left]. rewrite IH. f_equal.
  unfold parse_item, without_textless. destruct acc. cbn.
  now rewrite collect_filter_has_text.
Qed.

(** C3. The assistant text computed by the handler is the newline-join,
    in encounter order, of every non-empty text of every content piece of
    every "message" item, trimmed; items of an unknown type contribute
    nothing to the session (dropping them all gives the same session),
    and neither do message content pieces without a text field. *)
Theorem assistant_text_is_joined_message_text :
  forall output : list Output.t,
    full_assistant_text output = spec_assistant_text output /\
    (forall user_prompt st,
        apply_response user_prompt output st =
        apply_response user_prompt (filter known_item output) st) /\
    (forall user_prompt st,
        apply_response user_prompt output st =
        apply_response user_prompt (map without_textless output) st).
Proof.
  intros output. repeat split.
  - unfold full_assistant_text, spec_assistant_text.
    now rewrite parse_output_spec.
  - intros p st. apply apply_response_parse. unfold parse_output.
    now rewrite parse_filter_known.
  - intros p st. apply apply_response_parse. unfold parse_output.
    now rewrite parse_without_textless.
Qed.

(* ===================================================================== *)
(** * Several generated images in one response *)
(* ===================================================================== *)

Lemma image_call_not_message (out : Output.t) :
  is_image_call out = true -> is_message out = false.
Proof.
  intros Hi. destruct (is_message out) eqn:Hm; [|reflexivity].
  apply message_not_image_call in Hm. congruence.
Qed.

Lemma last_image_call_none (output : list Output.t) :
  last_image_call output = None <-> existsb is_image_call output = false.
Proof.
  induction output as [|out output IH]; [now cbn|].
  rewrite last_image_call_cons. cbn [existsb].
  destruct (last_image_call output) as [x|].
  - destruct IH as [_ IH].
    destruct (existsb is_image_call output).
    + rewrite orb_true_r. split; discriminate.
    + discriminate IH. reflexivity.
  - destruct IH as [IH _]. rewrite (IH eq_refl), orb_false_r.
    destruct (is_image_call out); split; congruence.
Qed.

Lemma parse_keep_last_image_call (output : list Output.t) :
  forall assistant_text img,
    fold_left parse_item (keep_last_image_call output) (assistant_text, img) =
    fold_left parse_item output (assistant_text, img).
Proof.
  induction output as [|out output IH]; intros acc img; [reflexivity|].
  cbn [keep_last_image_call fold_left].
  destruct (is_image_call out && existsb is_image_call output) eqn:Hdrop.
  - apply andb_prop in Hdrop as [Hi Hlater].
    assert (Hitem : parse_item (acc, img) out = (acc, Output.result out)).
    { unfold parse_item. fold (is_message out). fold (is_image_call out).
      now rewrite (image_call_not_message out Hi), Hi. }
    rewrite IH, Hitem, !fold_parse_item.
    destruct (last_image_call output) eqn:Hlast; [reflexivity|].
    apply last_image_call_none in Hlast. congruence.
  - cbn [fold_left]. destruct (parse_item (acc, img) out). apply IH.
Qed.

Lemma others_of_keep_last (output : list Output.t) :
  filter (fun out => negb (is_image_call out)) (keep_last_image_call output) =
  filter (fun out => negb (is_image_call out)) output.
Proof.
  induction output as [|out output IH]; [reflexivity|].
  cbn [keep_last_image_call filter].
  destruct (is_image_call out) eqn:Hi; cbn [andb negb].
  - destruct (existsb is_image_call output); [exact IH|].
    cbn [filter]. now rewrite Hi.
  - cbn [filter]. rewrite Hi. cbn [negb]. now rewrite IH.
Qed.

Lemma image_calls_of_keep_last (output : list Output.t) :
  filter is_image_call (keep_last_image_call output) =
  match last_image_call output with
  | Some out => [out]
  | None => []
  end.
Proof.
  induction output as [|out output IH]; [reflexivity|].
  cbn [keep_last_image_call]. rewrite last_image_call_cons.
  destruct (is_image_call out) eqn:Hi; cbn [andb].
  - destruct (existsb is_image_call output) eqn:Hlater.
    + rewrite IH. destruct (last_image_call output) eqn:Hlast; [reflexivity|].
      apply last_image_call_none in Hlast. congruence.
    + cbn [filter]. rewrite Hi, IH.
      apply last_image_call_none in Hlater. now rewrite Hlater.
  - cbn [filter]. rewrite Hi, IH. now destruct (last_image_call output).
Qed.

(** C4, as the code has it. The image the handler keeps is the result of
    the last image-generation-call item; it becomes the current image
    exactly when it is present and non-empty, and otherwise the current
    image keeps its prior value; the image-generation-call items before
    the last one leave no trace: removing them gives the same session. *)
Theorem last_image_call_decides_current :
  forall (user_prompt : string) (output : list Output.t) (st : Session),
    assistant_img_b64 output = spec_assistant_image output /\
    last_image_b64 (apply_response user_prompt output st) =
    (if truthy_opt (spec_assistant_image output)
     then spec_assistant_image output
     else last_image_b64 st) /\
    filter is_image_call (keep_last_image_call output) =
    match last_image_call output with
    | Some out => [out]
    | None => []
    end /\
    filter (fun out => negb (is_image_call out))
      (keep_last_image_call output) =
    filter (fun out => negb (is_image_call out)) output /\
    apply_response user_prompt output st =
    apply_response user_prompt (keep_last_image_call output) st.
Proof.
  intros p output st.
  assert (Himg : assistant_img_b64 output = spec_assistant_image output)
    by (unfold assistant_img_b64; now rewrite parse_output_spec).
  repeat split.
  - exact Himg.
  - unfold apply_response. rewrite Himg.
    unfold log_assistant_image, log_assistant_text, log_user.
    destruct (spec_assistant_image output) as [data|]; cbn [truthy_opt].
    + destruct (truthy data); [reflexivity|].
      now destruct (truthy (full_assistant_text output)).
    + now destruct (truthy (full_assistant_text output)).
  - apply image_calls_of_keep_last.
  - apply others_of_keep_last.
  - apply apply_response_parse. unfold parse_output.
    now rewrite parse_keep_last_image_call.
Qed.

(** C4, as stated, fails: with two image-generation-call items of which
    the last one carries no result (or an empty one), the current image
    is not that item's result; it keeps its prior value. *)
Lemma last_result_absent_keeps_current :
  let st := mkSession (Some "QQ==") (Some "QQ==") [] [] in
  let no_result :=
    [Output.mk "image_generation_call" [] (Some "Qg==");
     Output.mk "image_generation_call" [] None] in
  let empty_result :=
    [Output.mk "image_generation_call" [] (Some "Qg==");
     Output.mk "image_generation_call" [] (Some "")] in
  (List.length (filter is_image_call no_result) = 2 /\
   last_image_call no_result =
   Some (Output.mk "image_generation_call" [] None) /\
   last_image_b64 (apply_response "make it blue" no_result st) =
   Some "QQ==" /\
   last_image_b64 (apply_response "make it blue" no_result st) <> None) /\
  (List.length (filter is_image_call empty_result) = 2 /\
   last_image_call empty_result =
   Some (Output.mk "image_generation_call" [] (Some "")) /\
   last_image_b64 (apply_response "make it blue" empty_result st) =
   Some "QQ==" /\
   last_image_b64 (apply_response "make it blue" empty_result st) <>
   Some "").
Proof.
  cbv zeta. repeat split; try reflexivity; vm_compute; discriminate.
Qed.

(* ===================================================================== *)
(** * Prompt without an image, upload *)
(* ===================================================================== *)

(** C5. A prompt submitted while no image has been uploaded stops with
    the user-visible error: the remote service is not called, no payload
    is built, and the session is returned as it was. *)
Theorem prompt_without_image_stops :
  forall (service : Service) (prompt : string) (st : Session),
    original_image_b64 st = None ->
    truthy prompt = true ->
    prompt_handler service (Some prompt) st =
    (st, Stopped "Please upload an image first.").
Proof.
  intros service prompt st Horig Hprompt. unfold prompt_handler.
  now rewrite Hprompt, Horig.
Qed.

Lemma prompt_without_image_stops_witness :
  prompt_handler (fun _ => Some []) (Some "make it blue") initial_session =
  (initial_session, Stopped "Please upload an image first.").
Proof.
  apply prompt_without_image_stops; reflexivity.
Defined.

(** C6. An upload into a session without an original image sets both the
    original and the current image to the base64 encoding of the bytes
    and empties both logs; an upload into a session that has an original
    image changes nothing. *)
Theorem ingest_upload_first_only :
  forall (raw : bytes) (st : Session),
    (original_image_b64 st = None ->
     ingest_upload (Some raw) st =
     mkSession (Some (encode_b64 raw)) (Some (encode_b64 raw)) [] []) /\
    (original_image_b64 st <> None ->
     ingest_upload (Some raw) st = st).
Proof.
  intros raw st. unfold ingest_upload.
  destruct (original_image_b64 st); split; intros H;
    try reflexivity; congruence.
Qed.

Lemma ingest_upload_first_only_witness :
  let first := ingest_upload (Some ["A"%byte]) initial_session in
  first = mkSession (Some "QQ==") (Some "QQ==") [] [] /\
  ingest_upload (Some ["B"%byte]) first = first.
Proof.
  cbv zeta. split.
  - exact (proj1 (ingest_upload_first_only ["A"%byte] initial_session)
             eq_refl).
  - apply (proj2 (ingest_upload_first_only ["B"%byte]
                    (ingest_upload (Some ["A"%byte]) initial_session))).
    vm_compute. discriminate.
Defined.

(* ===================================================================== *)
(** * Frame and invariants of the session *)
(* ===================================================================== *)

(** The three state updates of the handler, case by case. *)
Ltac split_updates output :=
  unfold apply_response, log_assistant_image, log_assistant_text, log_user;
  destruct (assistant_img_b64 output) as [?data|];
  [destruct (truthy data)|];
  destruct (truthy (full_assistant_text output));
  cbn [original_image_b64 last_image_b64 chat_history chat_display].

Lemma apply_response_original (user_prompt : string)
    (output : list Output.t) (st : Session) :
  original_image_b64 (apply_response user_prompt output st) =
  original_image_b64 st.
Proof.
  split_updates output; reflexivity.
Qed.

Lemma prompt_handler_original (service : Service)
    (user_prompt : option string) (st : Session) :
  original_image_b64 (fst (prompt_handler service user_prompt st)) =
  original_image_b64 st.
Proof.
  unfold prompt_handler.
  destruct user_prompt as [prompt|]; [|reflexivity].
  destruct (truthy prompt); [|reflexivity].
  destruct (original_image_b64 st) eqn:Horig; [|now cbn].
  destruct (service (build_payload prompt st)); cbn [fst]; [|exact Horig].
  now rewrite apply_response_original.
Qed.

(** One operation changes the original image only as a first upload or
    as a reset. *)
Lemma step_original (st : Session) (op : Op) :
  original_image_b64 (step st op) <> original_image_b64 st ->
  (op = Reset /\ original_image_b64 (step st op) = None) \/
  (exists raw,
      op = IngestUpload (Some raw) /\
      original_image_b64 st = None /\
      original_image_b64 (step st op) = Some (encode_b64 raw)).
Proof.
  destruct op as [|uploaded|p output|service p]; cbn [step]; intros H.
  - left. split; reflexivity.
  - right. unfold ingest_upload in *.
    destruct uploaded as [raw|]; [|congruence].
    destruct (original_image_b64 st) eqn:Horig; [congruence|].
    exists raw. repeat split.
  - now rewrite apply_response_original in H.
  - now rewrite prompt_handler_original in H.
Qed.

(** C7. Along every sequence of operations the original image changes
    only at an upload into a session without one (from absent to the
    encoding of the uploaded bytes) and at a reset (back to absent);
    applying a response and running the prompt handler, which builds the
    request, never change it. *)
Theorem original_changes_only_by_upload_or_reset :
  (forall user_prompt output st,
      original_image_b64 (apply_response user_prompt output st) =
      original_image_b64 st) /\
  (forall service user_prompt st,
      original_image_b64 (fst (prompt_handler service user_prompt st)) =
      original_image_b64 st) /\
  (forall (earlier : list Op) (op : Op) (st0 : Session),
      let before := run earlier st0 in
      let after := run (earlier ++ [op]) st0 in
      original_image_b64 after <> original_image_b64 before ->
      (op = Reset /\ original_image_b64 after = None) \/
      (exists raw,
          op = IngestUpload (Some raw) /\
          original_image_b64 before = None /\
          original_image_b64 after = Some (encode_b64 raw))).
Proof.
  split; [exact apply_response_original|].
  split; [exact prompt_handler_original|].
  intros earlier op st0. cbv zeta. unfold run.
  rewrite fold_left_app. cbn [fold_left]. apply step_original.
Qed.

Lemma original_changes_only_by_upload_or_reset_witness :
  let earlier := [Reset; Prompt (fun _ => Some []) (Some "make it blue")] in
  let op := IngestUpload (Some ["A"%byte]) in
  (op = Reset /\
   original_image_b64 (run (earlier ++ [op]) initial_session) = None) \/
  (exists raw,
      op = IngestUpload (Some raw) /\
      original_image_b64 (run earlier initial_session) = None /\
      original_image_b64 (run (earlier ++ [op]) initial_session) =
      Some (encode_b64 raw)).
Proof.
  cbv zeta.
  apply (proj2 (proj2 original_changes_only_by_upload_or_reset)
           [Reset; Prompt (fun _ => Some []) (Some "make it blue")]
           (IngestUpload (Some ["A"%byte])) initial_session).
  vm_compute. discriminate.
Defined.

(** Every operation keeps the transcript no longer than the display log. *)
Lemma step_lengths (st : Session) (op : Op) :
  List.length (chat_history st) <= List.length (chat_display st) ->
  List.length (chat_history (step st op)) <=
  List.length (chat_display (step st op)).
Proof.
  assert (Happly : forall p output s,
             List.length (chat_history s) <= List.length (chat_display s) ->
             List.length (chat_history (apply_response p output s)) <=
             List.length (chat_display (apply_response p output s))).
  { intros p output s H.
    split_updates output; rewrite ?length_app; cbn [List.length]; lia. }
  intros H. destruct op as [|uploaded|p output|service p]; cbn [step].
  - cbn. lia.
  - unfold ingest_upload. destruct uploaded; [|exact H].
    destruct (original_image_b64 st); [exact H | cbn; lia].
  - now apply Happly.
  - unfold prompt_handler. destruct p as [prompt|]; [|exact H].
    destruct (truthy prompt); [|exact H].
    destruct (original_image_b64 st); [|exact H].
    destruct (service (build_payload prompt st)); cbn [fst]; [|exact H].
    now apply Happly.
Qed.

Lemma run_lengths (ops : list Op) :
  forall st,
    List.length (chat_history st) <= List.length (chat_display st) ->
    List.length (chat_history (run ops st)) <=
    List.length (chat_display (run ops st)).
Proof.
  induction ops as [|op ops IH]; intros st H; [exact H|].
  cbn [run fold_left]. apply IH. now apply step_lengths.
Qed.

(** C8. After every sequence of resets, uploads, applied responses and
    prompt-handler runs from the fresh session, the API transcript is no
    longer than the display log. *)
Theorem history_no_longer_than_display :
  forall ops : list Op,
    List.length (chat_history (run ops initial_session)) <=
    List.length (chat_display (run ops initial_session)).
Proof.
  intros ops. apply run_lengths. cbn. lia.
Qed.

Lemma apply_response_current (user_prompt : string)
    (output : list Output.t) (st : Session) :
  last_image_b64 st <> None ->
  last_image_b64 (apply_response user_prompt output st) <> None.
Proof.
  intros Hcur. split_updates output; congruence.
Qed.

(** C9. In every session the script can reach, the original image is
    absent exactly when the current image is absent; so the handler's
    guard (it stops when the original image is absent) fires exactly
    when the current image is absent. *)
Theorem original_absent_iff_current_absent :
  forall st : Session,
    reachable st ->
    (original_image_b64 st = None <-> last_image_b64 st = None) /\
    (forall (service : Service) (prompt : string),
        truthy prompt = true ->
        (snd (prompt_handler service (Some prompt) st) =
         Stopped "Please upload an image first." <->
         last_image_b64 st = None)).
Proof.
  intros st Hreach.
  assert (Hiff : original_image_b64 st = None <-> last_image_b64 st = None).
  { induction Hreach as [|st _ _|st uploaded _ IH|st service p _ IH].
    - now cbn.
    - now cbn.
    - unfold ingest_upload. destruct uploaded as [raw|]; [|exact IH].
      destruct (original_image_b64 st) eqn:Horig.
      + now rewrite Horig.
      + cbn. split; discriminate.
    - rewrite prompt_handler_original. unfold prompt_handler.
      destruct p as [prompt|]; [|exact IH].
      destruct (truthy prompt); [|exact IH].
      destruct (original_image_b64 st) eqn:Horig; [|exact IH].
      destruct (service (build_payload prompt st)); cbn [fst]; [|exact IH].
      split; [discriminate|]. intros Hcur.
      apply apply_response_current in Hcur; [contradiction|].
      intros Hnone. apply IH in Hnone. discriminate. }
  split; [exact Hiff|].
  intros service prompt Hprompt. rewrite <- Hiff.
  unfold prompt_handler. rewrite Hprompt.
  destruct (original_image_b64 st).
  - destruct (service (build_payload prompt st)); cbn [snd];
      split; discriminate.
  - cbn [snd]. split; reflexivity.
Qed.

Lemma original_absent_iff_current_absent_witness :
  let service : Service :=
    fun _ => Some [Output.mk "image_generation_call" [] (Some "Qg==")] in
  let st :=
    fst (prompt_handler service (Some "make it blue")
           (ingest_upload (Some ["A"%byte]) initial_session)) in
  (original_image_b64 st = None <-> last_image_b64 st = None) /\
  (snd (prompt_handler service (Some "now red") st) =
   Stopped "Please upload an image first." <->
   last_image_b64 st = None).
Proof.
  intros service st.
  destruct (original_absent_iff_current_absent st
              (reach_prompt _ service (Some "make it blue")
                 (reach_upload _ (Some ["A"%byte]) reach_init)))
    as [Hiff Hguard].
  split; [exact Hiff | exact (Hguard service "now red" eq_refl)].
Defined.

(* ===================================================================== *)
(** * Alternation of the transcript *)
(* ===================================================================== *)

Lemma alternates_from_app (h1 h2 : list Turn.t) :
  forall i,
    alternates_from i (h1 ++ h2) =
    alternates_from i h1 && alternates_from (i + List.length h1) h2.
Proof.
  induction h1 as [|t h1 IH]; intros i; cbn [app alternates_from List.length].
  - now rewrite Nat.add_0_r.
  - rewrite IH, Nat.add_succ_r, andb_assoc. reflexivity.
Qed.

(** A response with a non-empty assistant text keeps an alternating
    transcript of even length alternating and of even length. *)
Lemma apply_response_with_text_alternates (user_prompt : string)
    (output : list Output.t) (st : Session) :
  truthy (full_assistant_text output) = true ->
  alternates (chat_history st) = true ->
  Nat.even (List.length (chat_history st)) = true ->
  alternates (chat_history (apply_response user_prompt output st)) = true /\
  Nat.even
    (List.length (chat_history (apply_response user_prompt output st))) = true.
Proof.
  intros Htext Halt Heven.
  assert (Hhist : chat_history (apply_response user_prompt output st) =
                  chat_history st ++
                  [Turn.mk "user" user_prompt;
                   Turn.mk "assistant" (full_assistant_text output)]).
  { unfold apply_response, log_assistant_image, log_assistant_text, log_user.
    rewrite Htext.
    destruct (assistant_img_b64 output) as [data|];
      [destruct (truthy data)|]; cbn [chat_history];
      now rewrite <- app_assoc. }
  rewrite Hhist. split.
  - unfold alternates in *. rewrite alternates_from_app, Halt.
    cbn [alternates_from Nat.add andb Turn.role]. unfold expected_role.
    rewrite Nat.even_succ, <- Nat.negb_even, Heven. reflexivity.
  - rewrite length_app. cbn [List.length].
    rewrite Nat.even_add, Heven. reflexivity.
Qed.

(** C1 at a failing input: after an upload, two prompts that are each
    answered by a generated image and no text leave two "user" turns
    next to each other in the API transcript, so the entry at index 1 is
    not an "assistant" turn. *)
Theorem image_only_answers_break_alternation :
  let service : Service :=
    fun _ => Some [Output.mk "image_generation_call" [] (Some "Qg==")] in
  let st :=
    run [IngestUpload (Some ["A"%byte]);
         Prompt service (Some "make it blue");
         Prompt service (Some "now red")] initial_session in
  chat_history st =
  [Turn.mk "user" "make it blue"; Turn.mk "user" "now red"] /\
  alternates (chat_history st) = false /\
  adjacent_same_role (chat_history st) = true.
Proof.
  cbv zeta. repeat split.
Qed.

(* ===================================================================== *)
(** * The scenarios of the specification *)
(* ===================================================================== *)

(** Scenario 2: a text answer and an image. *)
Example scenario_text_and_image :
  apply_response "make it blue"
    [Output.mk "message" [Output.mk_piece (Some "Done!")] None;
     Output.mk "image_generation_call" [] (Some "Qg==")]
    (ingest_upload (Some ["A"%byte]) initial_session) =
  mkSession (Some "QQ==") (Some "Qg==")
    [Turn.mk "user" "make it blue"; Turn.mk "assistant" "Done!"]
    [Display.mk "user" "text" "make it blue";
     Display.mk "assistant" "text" "Done!";
     Display.mk "assistant" "image" "Qg=="].
Proof. reflexivity. Qed.

(** Scenario 3: the message has no text piece. *)
Example scenario_image_only :
  apply_response "make it blue"
    [Output.mk "message" [Output.mk_piece None] None;
     Output.mk "image_generation_call" [] (Some "Qg==")]
    (ingest_upload (Some ["A"%byte]) initial_session) =
  mkSession (Some "QQ==") (Some "Qg==")
    [Turn.mk "user" "make it blue"]
    [Display.mk "user" "text" "make it blue";
     Display.mk "assistant" "image" "Qg=="].
Proof. reflexivity. Qed.

(** Scenario 4: two generated images, the second one is kept. *)
Example scenario_two_images :
  apply_response "make it blue"
    [Output.mk "image_generation_call" [] (Some "Qg==");
     Output.mk "reasoning" [Output.mk_piece (Some "thinking")] (Some "Rg==");
     Output.mk "image_generation_call" [] (Some "Qw==")]
    (ingest_upload (Some ["A"%byte]) initial_session) =
  mkSession (Some "QQ==") (Some "Qw==")
    [Turn.mk "user" "make it blue"]
    [Display.mk "user" "text" "make it blue";
     Display.mk "assistant" "image" "Qw=="].
Proof. reflexivity. Qed.

(** Text pieces are joined by newlines and the result is trimmed. *)
Example scenario_joined_text :
  full_assistant_text
    [Output.mk "message"
       [Output.mk_piece (Some "  Done."); Output.mk_piece (Some "");
        Output.mk_piece None] None;
     Output.mk "message" [Output.mk_piece (Some "Anything else? ")] None] =
  ("Done." ++ newline ++ "Anything else?")%string.
Proof. reflexivity. Qed.

(** The codec on the customary test vectors. *)
Example encode_b64_vectors :
  encode_b64 ["M"%byte; "a"%byte; "n"%byte] = "TWFu" /\
  encode_b64 ["M"%byte; "a"%byte] = "TWE=" /\
  encode_b64 ["M"%byte] = "TQ==" /\
  decode_b64 "TWE=" = Some ["M"%byte; "a"%byte] /\
  decode_b64 "TWE" = None.
Proof. repeat split. Qed.

(* ===================================================================== *)
(** * Further properties of the session *)
(* ===================================================================== *)

(** The session after a response, in closed form. *)
Lemma apply_response_eq (user_prompt : string) (output : list Output.t)
    (st : Session) :
  apply_response user_prompt output st =
  mkSession (original_image_b64 st)
    (if truthy_opt (assistant_img_b64 output)
     then assistant_img_b64 output else last_image_b64 st)
    (chat_history st ++ new_turns user_prompt (full_assistant_text output))
    (chat_display st ++
     new_entries user_prompt (full_assistant_text output)
       (assistant_img_b64 output)).
Proof.
  unfold new_turns, new_entries, truthy_opt. destruct st as [o l h d].
  split_updates output; rewrite <- ?app_assoc; cbn [app]; try reflexivity;
    now rewrite ?app_nil_r.
Qed.

(** A property kept by a reset, by a first upload and by every applied
    response holds after every sequence of operations. *)
Lemma run_invariant (P : Session -> Prop) :
  P (mkSession None None [] []) ->
  (forall raw,
      P (mkSession (Some (encode_b64 raw)) (Some (encode_b64 raw)) [] [])) ->
  (forall p output st, P st -> P (apply_response p output st)) ->
  forall ops st, P st -> P (run ops st).
Proof.
  intros Hreset Hfresh Happly ops.
  induction ops as [|op ops IH]; intros st Hst; [exact Hst|].
  cbn [run fold_left]. apply IH.
  destruct op as [|uploaded|p output|service p]; cbn [step].
  - exact Hreset.
  - unfold ingest_upload. destruct uploaded as [raw|]; [|exact Hst].
    destruct (original_image_b64 st); [exact Hst | apply Hfresh].
  - now apply Happly.
  - unfold prompt_handler. destruct p as [prompt|]; [|exact Hst].
    destruct (truthy prompt); [|exact Hst].
    destruct (original_image_b64 st); [|exact Hst].
    destruct (service (build_payload prompt st)); cbn [fst]; [|exact Hst].
    now apply Happly.
Qed.

(** The same for the sessions of the script, where a response is applied
    only to a non-empty prompt and a session with an original image. *)
Lemma reachable_invariant (P : Session -> Prop) :
  P (mkSession None None [] []) ->
  (forall raw,
      P (mkSession (Some (encode_b64 raw)) (Some (encode_b64 raw)) [] [])) ->
  (forall p output st,
      P st -> truthy p = true -> original_image_b64 st <> None ->
      P (apply_response p output st)) ->
  forall st, reachable st -> P st.
Proof.
  intros Hreset Hfresh Happly st Hreach.
  induction Hreach as [|st _ _|st uploaded _ IH|st service p _ IH].
  - exact Hreset.
  - exact Hreset.
  - unfold ingest_upload. destruct uploaded as [raw|]; [|exact IH].
    destruct (original_image_b64 st); [exact IH | apply Hfresh].
  - unfold prompt_handler. destruct p as [prompt|]; [|exact IH].
    destruct (truthy prompt) eqn:Hp; [|exact IH].
    destruct (original_image_b64 st) eqn:Horig; [|exact IH].
    destruct (service (build_payload prompt st)); cbn [fst]; [|exact IH].
    apply Happly; [exact IH | exact Hp | congruence].
Qed.

Lemma text_turns_app (d1 d2 : list Display.t) :
  text_turns (d1 ++ d2) = text_turns d1 ++ text_turns d2.
Proof. unfold text_turns. apply flat_map_app. Qed.

Lemma text_turns_new_entries (p txt : string) (img : option string) :
  text_turns (new_entries p txt img) = new_turns p txt.
Proof.
  unfold new_entries, new_turns.
  destruct (truthy txt); destruct img as [data|];
    try destruct (truthy data); reflexivity.
Qed.

(** X1. After every sequence of operations from the fresh session, the
    API transcript is exactly the list of the text entries of the display
    log, in the same order, with the same roles and texts. *)
Theorem history_is_text_of_display :
  forall ops : list Op,
    chat_history (run ops initial_session) =
    text_turns (chat_display (run ops initial_session)).
Proof.
  intros ops.
  apply (run_invariant
           (fun st => chat_history st = text_turns (chat_display st)));
    try reflexivity.
  intros p output st H. rewrite apply_response_eq.
  cbn [chat_history chat_display].
  now rewrite text_turns_app, text_turns_new_entries, H.
Qed.

Lemma latest_image_app (d1 d2 : list Display.t) :
  latest_image (d1 ++ d2) =
  match latest_image d2 with
  | Some data => Some data
  | None => latest_image d1
  end.
Proof.
  unfold latest_image. rewrite rev_app_distr, find_app.
  now destruct (find _ (rev d2)).
Qed.

Lemma latest_image_new_entries (p txt : string) (img : option string) :
  latest_image (new_entries p txt img) =
  if truthy_opt img then img else None.
Proof.
  unfold new_entries, truthy_opt.
  destruct (truthy txt); destruct img as [data|];
    try destruct (truthy data); reflexivity.
Qed.

(** X2. After every sequence of operations from the fresh session, the
    current image is the data of the last image entry of the display log,
    and the original image when the log has no image entry. *)
Theorem current_is_latest_image :
  forall ops : list Op,
    let st := run ops initial_session in
    last_image_b64 st =
    match latest_image (chat_display st) with
    | Some data => Some data
    | None => original_image_b64 st
    end.
Proof.
  intros ops. cbv zeta.
  apply (run_invariant
           (fun st =>
              last_image_b64 st =
              match latest_image (chat_display st) with
              | Some data => Some data
              | None => original_image_b64 st
              end)); try reflexivity.
  intros p output st H. rewrite apply_response_eq.
  cbn [last_image_b64 chat_display original_image_b64].
  rewrite latest_image_app, latest_image_new_entries.
  destruct (truthy_opt (assistant_img_b64 output)) eqn:Himg; [|exact H].
  destruct (assistant_img_b64 output); [reflexivity | discriminate].
Qed.

Lemma user_led_new_turns (h : list Turn.t) (p txt : string) :
  forall after_user,
    user_led after_user h = true ->
    user_led after_user (h ++ new_turns p txt) = true.
Proof.
  induction h as [|t h IH]; intros b H.
  - cbn. now destruct (truthy txt).
  - cbn [app user_led] in *.
    destruct (String.eqb (Turn.role t) "user"); [now apply IH|].
    apply andb_prop in H as [H1 H2]. rewrite H1. now apply IH.
Qed.

(** X3. After every sequence of operations from the fresh session, the
    transcript holds only "user" and "assistant" turns, it does not start
    with an "assistant" turn, and every "assistant" turn comes right
    after a "user" turn (two user turns may be neighbours, two assistant
    turns never are). *)
Theorem assistant_turn_follows_user_turn :
  forall ops : list Op,
    user_led false (chat_history (run ops initial_session)) = true.
Proof.
  intros ops.
  apply (run_invariant (fun st => user_led false (chat_history st) = true));
    try reflexivity.
  intros p output st H. rewrite apply_response_eq. cbn [chat_history].
  now apply user_led_new_turns.
Qed.

Lemma lstrip_head (s : string) :
  match lstrip s with
  | EmptyString => True
  | String c _ => isspace c = false
  end.
Proof.
  induction s as [|c s IH]; cbn [lstrip]; [exact I|].
  destruct (isspace c) eqn:Hc; [exact IH | exact Hc].
Qed.

Lemma rstrip_first (c : ascii) (s : string) :
  rstrip (String c s) = EmptyString \/
  exists r, rstrip (String c s) = String c r.
Proof.
  cbn [rstrip]. destruct (rstrip s).
  - destruct (isspace c); [now left | right; eauto].
  - right; eauto.
Qed.

Lemma rstrip_last (s : string) :
  forall c r, rstrip s = String c r -> isspace (last_char c r) = false.
Proof.
  induction s as [|a s IH]; intros c r H; [discriminate|].
  cbn [rstrip] in H. destruct (rstrip s) as [|d r'] eqn:Hs.
  - destruct (isspace a) eqn:Ha; [discriminate|].
    injection H as <- <-. exact Ha.
  - injection H as <- <-. cbn [last_char]. now apply IH.
Qed.

(** A non-empty result of [strip] has no white space at either end. *)
Lemma strip_trimmed (s : string) :
  truthy (strip s) = true -> trimmed (strip s) = true.
Proof.
  unfold strip. intros H. pose proof (lstrip_head s) as Hhead.
  destruct (lstrip s) as [|c l]; [discriminate|].
  destruct (rstrip_first c l) as [E | [r E]]; rewrite E in *; [discriminate|].
  cbn [trimmed]. rewrite Hhead, (rstrip_last _ _ _ E). reflexivity.
Qed.

Lemma new_entries_ok (p : string) (output : list Output.t) :
  truthy p = true ->
  forallb entry_ok
    (new_entries p (full_assistant_text output) (assistant_img_b64 output)) =
  true.
Proof.
  intros Hp. unfold new_entries.
  cbn [forallb]. rewrite forallb_app. unfold entry_ok at 1. cbn. rewrite Hp.
  cbn. apply andb_true_intro. split.
  - destruct (truthy (full_assistant_text output)) eqn:Ht; [|reflexivity].
    cbn. unfold full_assistant_text in *. now rewrite strip_trimmed.
  - destruct (assistant_img_b64 output) as [data|]; [|reflexivity].
    destruct (truthy data) eqn:Hd; [|reflexivity]. cbn. now rewrite Hd.
Qed.

Lemma new_turns_ok (p : string) (output : list Output.t) :
  truthy p = true ->
  forallb turn_ok (new_turns p (full_assistant_text output)) = true.
Proof.
  intros Hp. unfold new_turns. cbn. rewrite Hp.
  destruct (truthy (full_assistant_text output)) eqn:Ht; [|reflexivity].
  cbn. unfold full_assistant_text in *. now rewrite strip_trimmed.
Qed.

(** X4. In every session the script can reach, each user entry of the two
    logs is a non-empty text, each assistant text is non-empty and has no
    white space at either end, each image entry of the display log is a
    non-empty string written by the assistant, and there is no other
    kind of entry. *)
Theorem reachable_logs_well_formed :
  forall st : Session,
    reachable st ->
    forallb turn_ok (chat_history st) = true /\
    forallb entry_ok (chat_display st) = true.
Proof.
  apply (reachable_invariant
           (fun st => forallb turn_ok (chat_history st) = true /\
                      forallb entry_ok (chat_display st) = true)).
  - now split.
  - now split.
  - intros p output st [Hh Hd] Hp _. rewrite apply_response_eq.
    cbn [chat_history chat_display]. rewrite !forallb_app, Hh, Hd.
    now rewrite new_turns_ok, new_entries_ok.
Qed.

Lemma reachable_logs_well_formed_witness :
  let service : Service :=
    fun _ =>
      Some [Output.mk "message" [Output.mk_piece (Some " Done! ")] None;
            Output.mk "image_generation_call" [] (Some "Qg==")] in
  let st :=
    fst (prompt_handler service (Some "make it blue")
           (ingest_upload (Some ["A"%byte]) initial_session)) in
  forallb turn_ok (chat_history st) = true /\
  forallb entry_ok (chat_display st) = true.
Proof.
  intros service st.
  exact (reachable_logs_well_formed st
           (reach_prompt _ service (Some "make it blue")
              (reach_upload _ (Some ["A"%byte]) reach_init))).
Defined.

(** Decoding inverts encoding, on the library functions. *)
Lemma b64decode_b64encode (raw : bytes) :
  Base64.b64decode (Base64.b64encode raw) = Some raw.
Proof.
  unfold Base64.b64decode, Base64.b64encode, Base64.a2b_base64.
  now rewrite b2a_base64_ascii, a2b_loop_b2a_base64.
Qed.

(** X5. After every sequence of operations from the fresh session, an
    original image that is present is the base64 encoding of the bytes of
    one of the uploads of the sequence, so it decodes, to those bytes. *)
Theorem original_is_an_encoded_upload :
  forall (ops : list Op) (img : string),
    original_image_b64 (run ops initial_session) = Some img ->
    exists raw,
      In (IngestUpload (Some raw)) ops /\
      img = encode_b64 raw /\
      decode_b64 img = Some raw.
Proof.
  intros ops. induction ops as [|op ops IH] using rev_ind; intros img H.
  - discriminate.
  - unfold run in *. rewrite fold_left_app in H. cbn [fold_left] in H.
    fold (run ops initial_session) in *.
    assert (Hkeep :
      original_image_b64 (step (run ops initial_session) op) =
      original_image_b64 (run ops initial_session) ->
      exists raw,
        In (IngestUpload (Some raw)) (ops ++ [op]) /\
        img = encode_b64 raw /\ decode_b64 img = Some raw).
    { intros E. rewrite E in H. destruct (IH img H) as (raw & Hin & Himg).
      exists raw. split; [apply in_or_app; now left | exact Himg]. }
    destruct op as [|uploaded|p output|service p].
    + discriminate.
    + destruct uploaded as [raw|]; [|now apply Hkeep].
      destruct (original_image_b64 (run ops initial_session)) eqn:Horig.
      * apply Hkeep. cbn [step]. unfold ingest_upload. now rewrite Horig.
      * cbn [step] in H. unfold ingest_upload in H. rewrite Horig in H.
        injection H as <-. exists raw. repeat split.
        -- apply in_or_app. right. now left.
        -- apply b64decode_b64encode.
    + apply Hkeep. apply apply_response_original.
    + apply Hkeep. apply prompt_handler_original.
Qed.

Lemma original_is_an_encoded_upload_witness :
  exists raw,
    In (IngestUpload (Some raw))
      [IngestUpload (Some ["M"%byte; "a"%byte]);
       ApplyResponse "make it blue" [];
       IngestUpload (Some ["B"%byte])] /\
    "TWE=" = encode_b64 raw /\
    decode_b64 "TWE=" = Some raw.
Proof.
  apply (original_is_an_encoded_upload
           [IngestUpload (Some ["M"%byte; "a"%byte]);
            ApplyResponse "make it blue" [];
            IngestUpload (Some ["B"%byte])] "TWE=").
  reflexivity.
Defined.

(** X6. Applying a response only appends: the transcript gets the user
    turn and then, if the assistant text is non-empty, the assistant
    turn; the display log gets the user text, then the assistant text if
    non-empty, then the image if the last image-generation-call item has
    a non-empty result; the entries already there and the original image
    stay as they are. *)
Theorem apply_response_appends :
  forall (user_prompt : string) (output : list Output.t) (st : Session),
    let txt := spec_assistant_text output in
    let img := spec_assistant_image output in
    let st' := apply_response user_prompt output st in
    original_image_b64 st' = original_image_b64 st /\
    chat_history st' = chat_history st ++ new_turns user_prompt txt /\
    chat_display st' = chat_display st ++ new_entries user_prompt txt img /\
    List.length (chat_history st) < List.length (chat_history st') <=
    List.length (chat_history st) + 2 /\
    List.length (chat_display st) < List.length (chat_display st') <=
    List.length (chat_display st) + 3.
Proof.
  intros p output st. cbv zeta. rewrite apply_response_eq.
  cbn [original_image_b64 chat_history chat_display].
  assert (Ht : full_assistant_text output = spec_assistant_text output)
    by (unfold full_assistant_text, spec_assistant_text;
        now rewrite parse_output_spec).
  assert (Hi : assistant_img_b64 output = spec_assistant_image output)
    by (unfold assistant_img_b64; now rewrite parse_output_spec).
  rewrite Ht, Hi, !length_app. repeat split; unfold new_turns, new_entries;
    destruct (truthy (spec_assistant_text output));
    destruct (spec_assistant_image output) as [data|];
    try destruct (truthy data); cbn [List.length app]; lia.
Qed.

Lemma apply_response_changes (user_prompt : string) (output : list Output.t)
    (st : Session) :
  apply_response user_prompt output st <> st.
Proof.
  intros E.
  apply (f_equal (fun s => List.length (chat_history s))) in E.
  rewrite apply_response_eq in E. cbn [chat_history] in E.
  rewrite length_app in E. unfold new_turns in E. cbn [List.length] in E. lia.
Qed.

(** X7. The prompt handler changes the session exactly when the remote
    call returned an answer: with no prompt, an empty prompt, no original
    image or a failing call the session is left as it was; and the
    service is called only for a non-empty prompt in a session with an
    original image, with the payload built from the session as it was
    before the call. *)
Theorem prompt_handler_changes_only_when_answered :
  forall (service : Service) (user_prompt : option string) (st : Session),
    (fst (prompt_handler service user_prompt st) <> st <->
     exists payload,
       snd (prompt_handler service user_prompt st) = Answered payload) /\
    (forall payload,
        snd (prompt_handler service user_prompt st) = Answered payload \/
        snd (prompt_handler service user_prompt st) = CallFailed payload ->
        exists prompt,
          user_prompt = Some prompt /\ truthy prompt = true /\
          original_image_b64 st <> None /\
          payload = build_payload prompt st).
Proof.
  intros service up st. unfold prompt_handler.
  destruct up as [prompt|];
    [destruct (truthy prompt) eqn:Hp;
     [destruct (original_image_b64 st) eqn:Horig;
      [destruct (service (build_payload prompt st)) as [output|]|]|]|];
    cbn [fst snd]; split;
    try (split; [intros H; now contradiction H | intros [? H]; discriminate]);
    try (intros payload [H|H]; discriminate).
  - split; [intros _; eauto | intros _; apply apply_response_changes].
  - intros payload [H|H]; [|discriminate]. injection H as <-.
    exists prompt. repeat split; congruence.
  - intros payload [H|H]; [discriminate|]. injection H as <-.
    exists prompt. repeat split; congruence.
Qed.

Lemma prompt_handler_changes_only_when_answered_witness :
  let st := ingest_upload (Some ["A"%byte]) initial_session in
  exists prompt,
    Some "make it blue" = Some prompt /\ truthy prompt = true /\
    original_image_b64 st <> None /\
    build_payload "make it blue" st = build_payload prompt st.
Proof.
  intros st.
  apply (proj2 (prompt_handler_changes_only_when_answered
                  (fun _ => None) (Some "make it blue") st)
           (build_payload "make it blue" st)).
  right. reflexivity.
Defined.

Lemma build_payload_eq (user_prompt : string) (st : Session) :
  build_payload user_prompt st =
  map request_turn (chat_history st) ++
  [Request.mk "user"
     [Request.Text "input_text" user_prompt;
      Request.Image "input_image"
        ("data:image/jpeg;base64," ++ format_value (last_image_b64 st))]].
Proof.
  unfold build_payload. now rewrite fold_append_turn.
Qed.

(** In the sessions of the script the two images are present together. *)
Lemma reachable_images_together (st : Session) :
  reachable st ->
  original_image_b64 st = None <-> last_image_b64 st = None.
Proof.
  revert st.
  apply (reachable_invariant
           (fun st => original_image_b64 st = None <->
                      last_image_b64 st = None)).
  - now split.
  - intros raw. cbn. split; discriminate.
  - intros p output st IH _ Horig. rewrite apply_response_eq.
    cbn [original_image_b64 last_image_b64].
    split; [contradiction|]. intros Hcur.
    destruct (truthy_opt (assistant_img_b64 output)) eqn:Himg.
    + rewrite Hcur in Himg. discriminate.
    + apply IH in Hcur. contradiction.
Qed.

(** X8. In every session the script can reach, a payload that is sent to
    the remote service ends with a user turn whose image is the data URI
    of the current image of the session, which is present: the text
    "None" is never sent in place of an image. *)
Theorem sent_payload_carries_current_image :
  forall (st : Session) (service : Service) (user_prompt : option string)
         (payload : list Request.t),
    reachable st ->
    snd (prompt_handler service user_prompt st) = Answered payload \/
    snd (prompt_handler service user_prompt st) = CallFailed payload ->
    exists prompt img,
      user_prompt = Some prompt /\
      last_image_b64 st = Some img /\
      payload = map request_turn (chat_history st) ++ [current_turn prompt img].
Proof.
  intros st service up payload Hreach Hsent.
  assert (Hcall : exists prompt,
             up = Some prompt /\ original_image_b64 st <> None /\
             payload = build_payload prompt st).
  { unfold prompt_handler in Hsent.
    destruct up as [prompt|];
      [destruct (truthy prompt);
       [destruct (original_image_b64 st) eqn:Horig;
        [destruct (service (build_payload prompt st))|]|]|];
      cbn [snd] in Hsent; destruct Hsent as [H|H]; try discriminate;
      injection H as <-; exists prompt; repeat split; congruence. }
  destruct Hcall as (prompt & -> & Horig & ->).
  destruct (last_image_b64 st) as [img|] eqn:Hcur.
  - exists prompt, img. repeat split.
    rewrite build_payload_eq, Hcur. reflexivity.
  - apply (reachable_images_together st Hreach) in Hcur. contradiction.
Qed.

Lemma sent_payload_carries_current_image_witness :
  let st := ingest_upload (Some ["A"%byte]) initial_session in
  exists prompt img,
    Some "make it blue" = Some prompt /\
    last_image_b64 st = Some img /\
    build_payload "make it blue" st =
    map request_turn (chat_history st) ++ [current_turn prompt img].
Proof.
  intros st.
  apply (sent_payload_carries_current_image st (fun _ => None)
           (Some "make it blue") (build_payload "make it blue" st)).
  - apply reach_upload, reach_init.
  - right. reflexivity.
Defined.

(** X9. The payload of the next prompt is the previous payload without its
    final turn, then the previous prompt as a text-only user turn, then
    the assistant text (if non-empty) as an "output_text" turn, then the
    new final turn: an image sent earlier is not sent again, and only
    the current image is attached. *)
Theorem next_payload_extends_previous :
  forall (p1 p2 : string) (output : list Output.t) (st : Session),
    let st' := apply_response p1 output st in
    let txt := spec_assistant_text output in
    build_payload p2 st' =
    removelast (build_payload p1 st) ++
    Request.mk "user" [Request.Text "input_text" p1] ::
    (if truthy txt
     then [Request.mk "assistant" [Request.Text "output_text" txt]]
     else []) ++
    [Request.mk "user"
       [Request.Text "input_text" p2;
        Request.Image "input_image"
          ("data:image/jpeg;base64," ++ format_value (last_image_b64 st'))]].
Proof.
  intros p1 p2 output st. cbv zeta.
  rewrite (build_payload_eq p2), (build_payload_eq p1), removelast_last.
  assert (Ht : full_assistant_text output = spec_assistant_text output)
    by (unfold full_assistant_text, spec_assistant_text;
        now rewrite parse_output_spec).
  rewrite apply_response_eq at 1. cbn [chat_history].
  rewrite map_app, <- app_assoc, Ht. unfold new_turns.
  destruct (truthy (spec_assistant_text output)); reflexivity.
Qed.

(** X10. The base64 text of [n] bytes has [4 * ceil (n / 3)] characters. *)
Theorem encode_b64_length :
  forall b : bytes,
    String.length (encode_b64 b) = 4 * ((List.length b + 2) / 3).
Proof.
  unfold encode_b64, Base64.b64encode.
  induction b as [| b1 | b1 b2 | b1 b2 b3 rest IH] using list_by_threes;
    try reflexivity.
  cbn [Base64.b2a_base64 String.length List.length]. rewrite IH.
  replace (S (S (S (List.length rest))) + 2)
    with (List.length rest + 2 + 1 * 3) by lia.
  rewrite Nat.div_add by discriminate. lia.
Qed.

(** X11. Two byte strings with the same base64 text are equal. *)
Theorem encode_b64_injective :
  forall a b : bytes, encode_b64 a = encode_b64 b -> a = b.
Proof.
  intros a b H.
  pose proof (b64decode_b64encode a) as Ha.
  pose proof (b64decode_b64encode b) as Hb.
  unfold encode_b64 in H. rewrite H in Ha. congruence.
Qed.

Lemma encode_b64_injective_witness :
  ["M"%byte; "a"%byte] = ["M"%byte; "a"%byte].
Proof.
  apply (encode_b64_injective ["M"%byte; "a"%byte] ["M"%byte; "a"%byte]).
  reflexivity.
Defined.

(* ===================================================================== *)
(** * Properties of a run of the script *)
(* ===================================================================== *)











(** X15. Once the current image is a non-empty string that does not
    decode, every run without a click on the reset button raises at the
    download button: nothing is drawn, no upload is ingested, no prompt is
    handled and the session stays as it is. A run with a click on the
    reset button does not depend on the session it starts from. *)
Theorem undecodable_image_blocks_until_reset :
  forall (cfg : Config) (service : Service) (uploaded : option bytes)
         (user_prompt : option string) (st : Session),
    config_complete cfg = true ->
    (forall img,
        last_image_b64 st = Some img -> truthy img = true ->
        decode_b64 img = None ->
        script_run cfg service false uploaded user_prompt st =
        (st, [], Raised)) /\
    script_run cfg service true uploaded user_prompt st =
    script_run cfg service true uploaded user_prompt initial_session.
Proof.
  intros cfg service uploaded up st Hcfg. split.
  - intros img Hcur Himg Hdata. unfold script_run. rewrite Hcfg.
    unfold sidebar_reset. cbn [and_then].
    unfold sidebar_download, shown_image. now rewrite Hcur, Himg, Hdata.
  - unfold script_run. rewrite Hcfg. reflexivity.
Qed.

Lemma undecodable_image_blocks_until_reset_witness :
  let cfg :=
    mkConfig (Some "https://example.test") (Some "key") (Some "img")
      (Some "chat") (Some "v1") in
  let service : Service :=
    fun _ => Some [Output.mk "image_generation_call" [] (Some "A")] in
  let st :=
    fst (prompt_handler service (Some "make it blue")
           (fresh_session ["A"%byte])) in
  last_image_b64 st = Some "A" /\
  script_run cfg service false (Some ["B"%byte]) (Some "now red") st =
  (st, [], Raised).
Proof.
  intros cfg service st. split; [reflexivity|].
  exact (proj1 (undecodable_image_blocks_until_reset cfg service
                  (Some ["B"%byte]) (Some "now red") st eq_refl)
           "A" eq_refl eq_refl eq_refl).
Defined.

(** X16. Uploading an empty file makes the session active although its
    image text is empty: the page still shows the hint to upload an
    image, yet a prompt submitted in the same run is not refused; it is
    sent to the service with an image URI that has no data. *)
Theorem empty_file_is_accepted :
  forall (cfg : Config) (service : Service) (prompt : string),
    config_complete cfg = true ->
    truthy prompt = true ->
    let r :=
      script_run cfg service false (Some []) (Some prompt) initial_session in
    original_image_b64 (session_of r) = Some "" /\
    firstn 2 (calls_of r) =
    [st_info "Upload an image in the sidebar to begin.";
     remote_call [current_turn prompt ""]].
Proof.
  intros cfg service prompt Hcfg Hp. cbv zeta.
  unfold script_run. rewrite Hcfg. unfold sidebar_reset. cbn [and_then].
  unfold sidebar_download.
  cbn [and_then shown_image initial_session last_image_b64].
  unfold current_image.
  cbn [and_then ingest_upload initial_session original_image_b64 encode_b64
       Base64.b64encode Base64.b2a_base64 shown_image last_image_b64 truthy].
  unfold prompt_section, prompt_handler. rewrite Hp.
  cbn [original_image_b64].
  change (build_payload prompt (mkSession (Some "") (Some "") [] []))
    with [current_turn prompt ""].
  destruct (service [current_turn prompt ""]) as [output|].
  - destruct (render_log _) as [calls status].
    split; [apply apply_response_original | reflexivity].
  - split; reflexivity.
Qed.

Lemma empty_file_is_accepted_witness :
  let cfg :=
    mkConfig (Some "https://example.test") (Some "key") (Some "img")
      (Some "chat") (Some "v1") in
  let r :=
    script_run cfg (fun _ => None) false (Some []) (Some "make it blue")
      initial_session in
  original_image_b64 (session_of r) = Some "" /\
  firstn 2 (calls_of r) =
  [st_info "Upload an image in the sidebar to begin.";
   remote_call [current_turn "make it blue" ""]].
Proof.
  intros cfg.
  exact (empty_file_is_accepted cfg (fun _ => None) "make it blue"
           eq_refl eq_refl).
Defined.



Lemma render_log_no_remote_call (display : list Display.t) :
  filter is_remote_call (fst (render_log display)) = [].
Proof.
  induction display as [|m display IH]; [reflexivity|].
  cbn [render_log]. destruct (String.eqb (Display.kind m) "text").
  - destruct (render_log display). exact IH.
  - destruct (decode_b64 (Display.data m)); [|reflexivity].
    destruct (render_log display). exact IH.
Qed.

Lemma and_then_session (P : Session -> Prop) (r : Run)
    (k : Session -> Run) :
  P (session_of r) ->
  (forall st, P st -> P (session_of (k st))) ->
  P (session_of (and_then r k)).
Proof.
  destruct r as [[st calls] status]. unfold session_of. cbn [fst].
  intros Hr Hk. destruct status; cbn [and_then fst]; try exact Hr.
  specialize (Hk st Hr). destruct (k st) as [[st' calls'] status'].
  exact Hk.
Qed.

Lemma and_then_remote_calls (r : Run) (k : Session -> Run) (n : nat) :
  filter is_remote_call (calls_of r) = [] ->
  (forall st, List.length (filter is_remote_call (calls_of (k st))) <= n) ->
  List.length (filter is_remote_call (calls_of (and_then r k))) <= n.
Proof.
  destruct r as [[st calls] status]. unfold calls_of. cbn [fst snd].
  intros Hr Hk. destruct status; cbn [and_then fst snd];
    try (rewrite Hr; cbn; lia).
  specialize (Hk st). destruct (k st) as [[st' calls'] status'].
  cbn [fst snd] in *. now rewrite filter_app, Hr.
Qed.

Lemma sidebar_download_quiet (st : Session) :
  session_of (sidebar_download st) = st /\
  filter is_remote_call (calls_of (sidebar_download st)) = [].
Proof.
  unfold sidebar_download. destruct (shown_image st) as [img|];
    [destruct (decode_b64 img)|]; now split.
Qed.

Lemma current_image_quiet (uploaded : option bytes) (st : Session) :
  session_of (current_image uploaded st) = ingest_upload uploaded st /\
  filter is_remote_call (calls_of (current_image uploaded st)) = [].
Proof.
  unfold current_image.
  destruct (shown_image (ingest_upload uploaded st)) as [img|];
    [destruct (decode_b64 img)|]; now split.
Qed.

Lemma prompt_section_session (service : Service)
    (user_prompt : option string) (st : Session) :
  session_of (prompt_section service user_prompt st) =
  fst (prompt_handler service user_prompt st).
Proof.
  unfold prompt_section.
  destruct (prompt_handler service user_prompt st) as [st' outcome].
  destruct outcome; try reflexivity.
  now destruct (render_log (chat_display st')).
Qed.

Lemma prompt_section_remote_calls (service : Service)
    (user_prompt : option string) (st : Session) :
  List.length
    (filter is_remote_call
       (calls_of (prompt_section service user_prompt st))) <= 1.
Proof.
  unfold prompt_section.
  destruct (prompt_handler service user_prompt st) as [st' outcome].
  destruct outcome; cbn; try lia.
  pose proof (render_log_no_remote_call (chat_display st')) as H.
  destruct (render_log (chat_display st')) as [calls status].
  unfold calls_of. cbn [fst snd filter is_remote_call] in *.
  rewrite H. cbn. lia.
Qed.

(** X18. A run of the script calls the remote service at most once, and
    not at all when no prompt was submitted or the prompt is empty. *)
Theorem at_most_one_remote_call_per_run :
  forall (cfg : Config) (service : Service) (reset_clicked : bool)
         (uploaded : option bytes) (user_prompt : option string)
         (st : Session),
    List.length
      (filter is_remote_call
         (calls_of
            (script_run cfg service reset_clicked uploaded user_prompt st)))
    <= 1 /\
    List.length
      (filter is_remote_call
         (calls_of (script_run cfg service reset_clicked uploaded None st)))
    = 0 /\
    List.length
      (filter is_remote_call
         (calls_of
            (script_run cfg service reset_clicked uploaded (Some "") st)))
    = 0.
Proof.
  intros cfg service r uploaded up st.
  assert (H : forall up' n,
             (forall s,
                 List.length
                   (filter is_remote_call
                      (calls_of (prompt_section service up' s))) <= n) ->
             List.length
               (filter is_remote_call
                  (calls_of (script_run cfg service r uploaded up' st)))
             <= n).
  { intros up' n Hn. unfold script_run.
    destruct (config_complete cfg); [|cbn; lia].
    apply and_then_remote_calls.
    { unfold sidebar_reset. now destruct r. }
    intros s1. apply and_then_remote_calls.
    { apply sidebar_download_quiet. }
    intros s2. apply and_then_remote_calls.
    { apply current_image_quiet. }
    exact Hn. }
  repeat split.
  - apply H. intros s. apply prompt_section_remote_calls.
  - apply Nat.le_0_r. apply H. intros s. cbn. lia.
  - apply Nat.le_0_r. apply H. intros s. cbn. lia.
Qed.

(** X19. A run of the script leads from a session the script can reach to
    a session the script can reach, however it ends: what is proved of
    reachable sessions holds after every run. *)
Theorem script_run_stays_reachable :
  forall (cfg : Config) (service : Service) (reset_clicked : bool)
         (uploaded : option bytes) (user_prompt : option string)
         (st : Session),
    reachable st ->
    reachable
      (session_of
         (script_run cfg service reset_clicked uploaded user_prompt st)).
Proof.
  intros cfg service r uploaded up st Hst. unfold script_run.
  destruct (config_complete cfg); [|exact Hst].
  apply and_then_session.
  { unfold sidebar_reset. destruct r; [apply reach_reset|]; exact Hst. }
  intros s1 H1. apply and_then_session.
  { now rewrite (proj1 (sidebar_download_quiet s1)). }
  intros s2 H2. apply and_then_session.
  { rewrite (proj1 (current_image_quiet uploaded s2)).
    now apply reach_upload. }
  intros s3 H3. rewrite prompt_section_session. now apply reach_prompt.
Qed.

Lemma script_run_stays_reachable_witness :
  let cfg :=
    mkConfig (Some "https://example.test") (Some "key") (Some "img")
      (Some "chat") (Some "v1") in
  reachable
    (session_of
       (script_run cfg (fun _ => Some []) true (Some ["A"%byte])
          (Some "make it blue") initial_session)).
Proof.
  intros cfg.
  exact (script_run_stays_reachable cfg (fun _ => Some []) true
           (Some ["A"%byte]) (Some "make it blue") initial_session
           reach_init).
Defined.

Lemma lstrip_all_space (s : string) :
  all_space s = true -> lstrip s = EmptyString.
Proof.
  induction s as [|c s IH]; [reflexivity|]. cbn [all_space lstrip].
  intros H. apply andb_prop in H as [Hc Hs]. rewrite Hc. now apply IH.
Qed.

Lemma all_space_append (a b : string) :
  all_space (a ++ b) = all_space a && all_space b.
Proof.
  induction a as [|c a IH]; [reflexivity|].
  cbn [String.append all_space]. now rewrite IH, andb_assoc.
Qed.

Lemma all_space_join (l : list string) :
  forallb all_space l = true -> all_space (join newline l) = true.
Proof.
  induction l as [|x l IH]; [reflexivity|].
  cbn [forallb]. intros H. apply andb_prop in H as [Hx Hl].
  destruct l as [|y l]; [exact Hx|].
  change (join newline (x :: y :: l))
    with (x ++ newline ++ join newline (y :: l))%string.
  rewrite !all_space_append, Hx, (IH Hl). reflexivity.
Qed.

(** X20. An answer whose message texts are all white space (or that has
    no text at all) counts as an answer without text: the transcript gets
    the user turn only, and the display log gets no assistant text
    entry. *)
Theorem blank_answer_adds_no_assistant_turn :
  forall (user_prompt : string) (output : list Output.t) (st : Session),
    forallb all_space (message_texts output) = true ->
    chat_history (apply_response user_prompt output st) =
    chat_history st ++ [Turn.mk "user" user_prompt] /\
    chat_display (apply_response user_prompt output st) =
    chat_display st ++
    new_entries user_prompt "" (spec_assistant_image output).
Proof.
  intros p output st H.
  assert (Ht : full_assistant_text output = "").
  { unfold full_assistant_text. rewrite parse_output_spec. cbn [fst].
    unfold strip. now rewrite (lstrip_all_space _ (all_space_join _ H)). }
  assert (Hi : assistant_img_b64 output = spec_assistant_image output)
    by (unfold assistant_img_b64; now rewrite parse_output_spec).
  rewrite apply_response_eq. cbn [chat_history chat_display].
  rewrite Ht, Hi. split; reflexivity.
Qed.

Lemma blank_answer_adds_no_assistant_turn_witness :
  let output :=
    [Output.mk "message"
       [Output.mk_piece (Some " "); Output.mk_piece (Some newline)] None;
     Output.mk "image_generation_call" [] (Some "Qg==")] in
  let st := fresh_session ["A"%byte] in
  chat_history (apply_response "make it blue" output st) =
  chat_history st ++ [Turn.mk "user" "make it blue"] /\
  chat_display (apply_response "make it blue" output st) =
  chat_display st ++
  new_entries "make it blue" "" (spec_assistant_image output).
Proof.
  intros output st.
  exact (blank_answer_adds_no_assistant_turn "make it blue" output st
           eq_refl).
Defined.
